(** * Delta sync client: a shallow embedding of [create-client.js]

    The file embeds
    [src/examples/simple-example/fault-tolerant/delta/create-client.js]:
    the outbound message builder [getMessages], the inbound message applier
    [handleMessages] and the clock closures [getStamp], [setClock],
    [recvClock] of [createClient].

    Conventions of the embedding.
    - A JavaScript object used as a dictionary is a [gmap string _]: the keys
      are its own properties.  The objects the client reads by node id
      ([changed], the cache and the per-node listeners of a collection) are
      ordinary objects: a read of a key they do not own reaches
      [Object.prototype] ([obj_get]), and an assignment to ["__proto__"]
      creates no own property.
    - A read of a missing property yields [undefined]; every type that can
      sit in such a slot carries its [undefined] and its truthiness
      ([JsValue]).
    - An exception (or a rejected promise) is a [Throw] result.  The state
      reached before the exception is kept: nothing in the source rolls
      anything back.
    - Calls made on the collaborators and on the callbacks handed to the
      code (persistence, clock store, listeners, cross-tab channel, clock
      receive) are recorded, in order, in a ghost log.
    - Numbers are integers of [Z]; rounding of doubles beyond 2^53 is not
      modelled.  Strings are sequences of 8-bit code units, compared as
      JavaScript compares them, code unit by code unit.  [console.log] is
      not modelled.
    - The functions of the CRDT are pure and total; a listener is known by
      its identity, and calling it leaves the client as it is. *)

From Stdlib Require Import ZArith NArith String Ascii List DecimalString
  OrderedTypeEx.
From stdpp Require Import base option list gmap strings sorting.

Local Open Scope string_scope.
Local Open Scope list_scope.

(** ** JavaScript values *)

(** What the code needs of a JavaScript value: the value read from a
    missing slot, and the truthiness tested by [if (v)] and [!v]. *)
Class JsValue (A : Type) := {
  undefined : A;
  truthy : A → bool;
  truthy_undefined : truthy undefined = false
}.

(** [data[k]] on the object [persistence.applyDeltas] answered with: the own
    property, [undefined] when there is none.  The persistence is taken to
    answer with an entry for every node it merged, so that no read of its
    answer reaches a prototype. *)
Definition js_get `{JsValue A} (obj : gmap string A) (k : string) : A :=
  default undefined (obj !! k).

(** ** Ordinary objects read by key *)

(** The property names every ordinary object inherits from
    [Object.prototype]. *)
Definition object_prototype_members : list string :=
  ["constructor"; "hasOwnProperty"; "isPrototypeOf"; "propertyIsEnumerable";
   "toLocaleString"; "toString"; "valueOf"; "__defineGetter__";
   "__defineSetter__"; "__lookupGetter__"; "__lookupSetter__"; "__proto__"].

Definition is_prototype_member (k : string) : bool :=
  bool_decide (k ∈ object_prototype_members).

(** What [obj[k]] finds on an ordinary object: an own property, a member
    inherited from [Object.prototype] (a function, or for ["__proto__"] the
    prototype itself), or nothing. *)
Inductive Slot (A : Type) :=
| Own (v : A)
| Inherited
| Missing.
Arguments Own {A} v.
Arguments Inherited {A}.
Arguments Missing {A}.

Definition obj_get {A} (obj : gmap string A) (k : string) : Slot A :=
  match obj !! k with
  | Some v => Own v
  | None => if is_prototype_member k then Inherited else Missing
  end.

(** [if (obj[k])]: an inherited member is an object, hence truthy; a
    missing property is [undefined]. *)
Definition slot_truthy `{JsValue A} (s : Slot A) : bool :=
  match s with
  | Own v => truthy v
  | Inherited => true
  | Missing => false
  end.

(** A string is truthy unless it is empty. *)
Definition string_truthy (s : string) : bool :=
  match s with
  | EmptyString => false
  | String _ _ => true
  end.

(** [a > b] on strings: lexicographic on code units. *)
Definition string_gt (a b : string) : bool :=
  match String.compare a b with
  | Gt => true
  | _ => false
  end.

(** ** Own property keys of an object literal filled by assignment *)

Definition is_digit (a : ascii) : bool :=
  (48 <=? nat_of_ascii a)%nat && (nat_of_ascii a <=? 57)%nat.

Fixpoint digits_value (acc : N) (s : string) : option N :=
  match s with
  | EmptyString => Some acc
  | String a rest =>
      if is_digit a
      then digits_value (10 * acc + N.of_nat (nat_of_ascii a - 48))%N rest
      else None
  end.

(** An array index is a canonical numeric string (no leading zero, no sign)
    below 2^32 - 1. *)
Definition array_index (s : string) : option N :=
  match s with
  | EmptyString => None
  | String a rest =>
      if (nat_of_ascii a =? 48)%nat
      then match rest with EmptyString => Some 0%N | _ => None end
      else match digits_value 0 s with
           | Some n => if (n <? 4294967295)%N then Some n else None
           | None => None
           end
  end.

Definition is_array_index (s : string) : bool :=
  match array_index s with Some _ => true | None => false end.

Definition index_le (a b : string) : Prop :=
  (default 0 (array_index a) ≤ default 0 (array_index b))%N.

#[global] Instance index_le_dec : RelDecision index_le.
Proof. intros a b. unfold index_le. apply _. Defined.

(** [obj[k] = true] on each key in turn: a key already there keeps its
    place; an assignment to ["__proto__"] goes to the accessor of
    [Object.prototype], which ignores a value that is not an object, and
    creates no own property. *)
Definition assign_key (own : list string) (k : string) : list string :=
  if decide (k = "__proto__") then own
  else if decide (k ∈ own) then own else own ++ [k].

Definition assigned_keys (ks : list string) : list string :=
  fold_left assign_key ks [].

(** [Object.keys]: array indices first, in ascending numeric order, then
    the other keys in the order they were created. *)
Definition ordinary_own_keys (own : list string) : list string :=
  merge_sort index_le (filter (λ k, is_array_index k = true) own)
  ++ filter (λ k, is_array_index k = false) own.

(** [Object.keys(changed)] after [ks.forEach(k => changed[k] = true)]. *)
Definition object_keys (ks : list string) : list string :=
  ordinary_own_keys (assigned_keys ks).


(** ** Errors *)

Inductive Error :=
| TypeError (what : string)     (* raised by the engine *)
| Rejected (reason : string).   (* raised by a collaborator *)

Inductive Result (A : Type) :=
| Ok (a : A)
| Throw (e : Error).
Arguments Ok {A} a.
Arguments Throw {A} e.

Definition result_bind {A B} (r : Result A) (k : A → Result B) : Result B :=
  match r with
  | Ok a => k a
  | Throw e => Throw e
  end.

Notation "'let?' x ':=' r 'in' k" := (result_bind r (λ x, k))
  (at level 10, x name, r at level 100, k at level 200).

(** [Promise.all(xs.map(f))] for an [f] that only reads: the array of the
    results, or a rejection; the rejection kept is the one of the first
    element that rejects (the code keeps the first in time, and no statement
    below says which). *)
Fixpoint result_all {A B} (f : A → Result B) (xs : list A) : Result (list B) :=
  match xs with
  | [] => Ok []
  | x :: rest =>
      let? y := f x in
      let? ys := result_all f rest in
      Ok (y :: ys)
  end.

(** ** Data of the protocol *)

(** Modelled from the spec: the clock record of the hybrid-logical-clock
    package, whose sources are not part of this file's unit; the spec gives
    it as [{ node, timestamp, counter }]. *)
Record HLC := {
  node : string;
  timestamp : Z;
  counter : Z
}.

(** The functions of the hybrid-logical-clock package used by the client. *)
Record HLCImpl := {
  inc : HLC → Z → HLC;
  recv : HLC → HLC → Z → HLC;
  pack : HLC → string;
  unpack : string → HLC
}.

(** A delta as it travels in a sync message: [{ node, delta }]. *)
Record NodeDelta (Delta : Type) := {
  nd_node : string;
  nd_delta : Delta
}.
Arguments nd_node {Delta} _.
Arguments nd_delta {Delta} _.

(** A delta with its stamp: [{ node, delta, stamp }]. *)
Record PendingDelta (Delta : Type) := {
  pd_node : string;
  pd_delta : Delta;
  pd_stamp : string
}.
Arguments pd_node {Delta} _.
Arguments pd_delta {Delta} _.
Arguments pd_stamp {Delta} _.

Inductive ClientMessage (Delta Cursor : Type) :=
| CSync (collection : string) (serverCursor : Cursor)
        (deltas : list (NodeDelta Delta)).
Arguments CSync {Delta Cursor} collection serverCursor deltas.

Definition cm_collection {Delta Cursor} (m : ClientMessage Delta Cursor) : string :=
  match m with CSync c _ _ => c end.

Inductive ServerMessage (Delta Cursor : Type) :=
| SSync (collection : string) (serverCursor : Cursor)
        (deltas : list (NodeDelta Delta))
| SAck (collection : string) (deltaStamp : string).
Arguments SSync {Delta Cursor} collection serverCursor deltas.
Arguments SAck {Delta Cursor} collection deltaStamp.

(** [{ col, nodes }] *)
Record PeerChange := {
  pc_col : string;
  pc_nodes : list string
}.

(** ** Collaborators *)

Record CRDTImpl (Delta Data Value : Type) := {
  deltas_stamp : Delta → string;          (* crdt.deltas.stamp *)
  deltas_apply : Data → Delta → Data;     (* crdt.deltas.apply *)
  value : Data → Value                    (* crdt.value *)
}.
Arguments deltas_stamp {Delta Data Value} _ _.
Arguments deltas_apply {Delta Data Value} _ _ _.
Arguments value {Delta Data Value} _ _.

(** The persistence object, over the state [P] of its backing store.  The
    two reads leave the store as it is; every call may reject. *)
Record DeltaPersistence (Delta Data Cursor P : Type) := {
  collections : list string;
  deltas : string → P → Result (list (PendingDelta Delta));
  getServerCursor : string → P → Result Cursor;
  applyDeltas : string → list (PendingDelta Delta) → Cursor →
                (Data → Delta → Data) → P → P * Result (gmap string Data);
  deleteDeltas : string → string → P → P * Result unit
}.
Arguments collections {Delta Data Cursor P} _.
Arguments deltas {Delta Data Cursor P} _ _ _.
Arguments getServerCursor {Delta Data Cursor P} _ _ _.
Arguments applyDeltas {Delta Data Cursor P} _ _ _ _ _ _.
Arguments deleteDeltas {Delta Data Cursor P} _ _ _ _.

(** The clock store, over its state [CP]. *)
Record ClockPersist (CP : Type) := {
  cp_set : HLC → CP → CP * Result unit
}.
Arguments cp_set {CP} _ _ _.

(** ** Collection state *)

(** A registered callback, known by its identity only: what it does when
    called is outside the client. *)
Definition Listener := nat.

Record CollectionState (Data : Type) := {
  cache : gmap string Data;
  listeners : list Listener;
  itemListeners : gmap string (list Listener)
}.
Arguments cache {Data} _.
Arguments listeners {Data} _.
Arguments itemListeners {Data} _.
Arguments Build_CollectionState {Data} _ _ _.

(** Modelled from the spec: [newCollection] of [./shared], which is not among
    the sources; the spec gives it an empty cache and empty listener lists. *)
Definition newCollection {Data} : CollectionState Data :=
  {| cache := ∅; listeners := []; itemListeners := ∅ |}.

(** ** Observable calls *)

Inductive Event (Delta Cursor Value : Type) :=
| EvApplyDeltas (collection : string) (ds : list (PendingDelta Delta))
                (serverCursor : Cursor)
| EvDeleteDeltas (collection : string) (deltaStamp : string)
| EvListener (fn : Listener) (changes : list (string * Value))
| EvItemListener (id : string) (fn : Listener) (v : Value)
| EvSendCrossTabChanges (change : PeerChange)
| EvRecvClock (c : HLC)
| EvClockPersistSet (c : HLC).
Arguments EvApplyDeltas {Delta Cursor Value} _ _ _.
Arguments EvDeleteDeltas {Delta Cursor Value} _ _.
Arguments EvListener {Delta Cursor Value} _ _.
Arguments EvItemListener {Delta Cursor Value} _ _ _.
Arguments EvSendCrossTabChanges {Delta Cursor Value} _.
Arguments EvRecvClock {Delta Cursor Value} _.
Arguments EvClockPersistSet {Delta Cursor Value} _.

(** ** The client *)

Section Client.
Context {Delta Data Value Cursor : Type}.
Context {data_js : JsValue Data} {cursor_js : JsValue Cursor}.
Context {P CP : Type}.

Local Abbreviation Ev := (Event Delta Cursor Value).

(** Everything the code of the client can read or change: the backing
    store behind [persistence], the [state] object, the [clock] variable of
    [createClient], the store behind [clockPersist], the wall clock read by
    [Date.now()] (its [tick]-th reading is [wall tick]) and the log. *)
Record World := {
  store : P;
  state : gmap string (CollectionState Data);
  clock : HLC;
  clockStore : CP;
  wall : nat → Z;
  tick : nat;
  log : list Ev
}.

Definition set_store (p : P) (w : World) : World :=
  {| store := p; state := state w; clock := clock w;
     clockStore := clockStore w; wall := wall w; tick := tick w;
     log := log w |}.
Definition set_state (s : gmap string (CollectionState Data)) (w : World) : World :=
  {| store := store w; state := s; clock := clock w;
     clockStore := clockStore w; wall := wall w; tick := tick w;
     log := log w |}.
Definition set_clock (c : HLC) (w : World) : World :=
  {| store := store w; state := state w; clock := c;
     clockStore := clockStore w; wall := wall w; tick := tick w;
     log := log w |}.
Definition set_clockStore (c : CP) (w : World) : World :=
  {| store := store w; state := state w; clock := clock w;
     clockStore := c; wall := wall w; tick := tick w; log := log w |}.
Definition set_tick (n : nat) (w : World) : World :=
  {| store := store w; state := state w; clock := clock w;
     clockStore := clockStore w; wall := wall w; tick := n; log := log w |}.
Definition set_log (l : list Ev) (w : World) : World :=
  {| store := store w; state := state w; clock := clock w;
     clockStore := clockStore w; wall := wall w; tick := tick w; log := l |}.

(** *** Computations: a state that survives exceptions *)

Definition M (A : Type) : Type := World → World * Result A.

Definition ret {A} (a : A) : M A := λ w, (w, Ok a).
Definition throw {A} (e : Error) : M A := λ w, (w, Throw e).
Definition bind {A B} (m : M A) (k : A → M B) : M B :=
  λ w, match m w with
       | (w', Ok a) => k a w'
       | (w', Throw e) => (w', Throw e)
       end.

Notation "'let*' x ':=' m 'in' k" := (bind m (λ x, k))
  (at level 10, x name, m at level 100, k at level 200).

Definition gets {A} (f : World → A) : M A := λ w, (w, Ok (f w)).
Definition modify (f : World → World) : M unit := λ w, (f w, Ok tt).
Definition emit (e : Ev) : M unit := modify (λ w, set_log (log w ++ [e]) w).

(** [xs.forEach(f)] *)
Fixpoint forEach {A} (xs : list A) (f : A → M unit) : M unit :=
  match xs with
  | [] => ret tt
  | x :: rest => let* _ := f x in forEach rest f
  end.

(** *** Calls on the collaborators *)

Definition call_applyDeltas (persistence : DeltaPersistence Delta Data Cursor P)
    (collection : string) (ds : list (PendingDelta Delta))
    (serverCursor : Cursor) (merge : Data → Delta → Data)
  : M (gmap string Data) :=
  let* _ := emit (EvApplyDeltas collection ds serverCursor) in
  λ w, let (p, r) := applyDeltas persistence collection ds serverCursor merge (store w) in
       (set_store p w, r).

Definition call_deleteDeltas (persistence : DeltaPersistence Delta Data Cursor P)
    (collection deltaStamp : string) : M unit :=
  let* _ := emit (EvDeleteDeltas collection deltaStamp) in
  λ w, let (p, r) := deleteDeltas persistence collection deltaStamp (store w) in
       (set_store p w, r).

Definition call_clockPersist_set (clockPersist : ClockPersist CP) (c : HLC) : M unit :=
  let* _ := emit (EvClockPersistSet c) in
  λ w, let (s, r) := cp_set clockPersist c (clockStore w) in
       (set_clockStore s w, r).

Definition sendCrossTabChanges (change : PeerChange) : M unit :=
  emit (EvSendCrossTabChanges change).

(** [Date.now()] *)
Definition dateNow : M Z :=
  λ w, (set_tick (S (tick w)) w, Ok (wall w (tick w))).

(** *** getMessages (lines 46-70) *)

Definition strip_stamp (d : PendingDelta Delta) : NodeDelta Delta :=
  {| nd_node := pd_node d; nd_delta := pd_delta d |}.

(** The callback mapped over [persistence.collections]; [None] is the
    [undefined] it returns when the condition fails. *)
Definition getMessage (persistence : DeltaPersistence Delta Data Cursor P)
    (reconnected : bool) (p : P) (id : string)
  : Result (option (ClientMessage Delta Cursor)) :=
  let? ds := deltas persistence id p in
  let? serverCursor := getServerCursor persistence id p in
  if negb (length ds =? 0)%nat || negb (truthy serverCursor) || reconnected
  then Ok (Some (CSync id serverCursor (map strip_stamp ds)))
  else Ok None.

(** [a.filter(Boolean)]: a message is an object, hence truthy. *)
Definition filter_Boolean {A} (a : list (option A)) : list A := omap id a.

Definition getMessages (persistence : DeltaPersistence Delta Data Cursor P)
    (reconnected : bool) (p : P) : Result (list (ClientMessage Delta Cursor)) :=
  let? a := result_all (getMessage persistence reconnected p)
                       (collections persistence) in
  Ok (filter_Boolean a).

(** *** handleMessages (lines 72-150) *)

(** A property read on [state[collection]]: a [TypeError] when the
    collection is not a key of [state].  (For a collection named like a
    member of [Object.prototype] the code throws its [TypeError] at the same
    point, one property further, on [.length]; the text of the error is not
    told apart.) *)
Definition read_col (collection : string) (prop : string) : M (CollectionState Data) :=
let* st := gets state in
match st !! collection with
| Some col => ret col
| None =>
    throw (TypeError ("Cannot read properties of undefined (reading '" ++ prop ++ "')")%string)
end.

(** The collection state with another cache. *)
Definition with_cache (c : gmap string Data) (col : CollectionState Data)
  : CollectionState Data :=
{| cache := c; listeners := listeners col; itemListeners := itemListeners col |}.

(** [state[collection].cache[id] = v] *)
Definition write_cache (collection id : string) (v : Data) : M unit :=
let* col := read_col collection "cache" in
modify (λ w, set_state (<[collection := with_cache (<[id := v]> (cache col)) col]> (state w)) w).

(** [{ ...delta, stamp: crdt.deltas.stamp(delta.delta) }] *)
Definition with_stamp (crdt : CRDTImpl Delta Data Value) (d : NodeDelta Delta)
  : PendingDelta Delta :=
{| pd_node := nd_node d; pd_delta := nd_delta d;
   pd_stamp := deltas_stamp crdt (nd_delta d) |}.

(** [changedIds.map(id => ({ id, value: crdt.value(data[id]) }))] *)
Definition changes_of (crdt : CRDTImpl Delta Data Value) (data : gmap string Data)
    (changedIds : list string) : list (string * Value) :=
map (λ id, (id, value crdt (js_get data id))) changedIds.

(** Lines 103-111. *)
Definition notify_listeners (crdt : CRDTImpl Delta Data Value) (collection : string)
    (data : gmap string Data) (changedIds : list string) : M unit :=
let* col := read_col collection "listeners" in
if negb (length (listeners col) =? 0)%nat
then
  let changes := changes_of crdt data changedIds in
  forEach (listeners col) (λ listener, emit (EvListener listener changes))
else ret tt.

(** What line 118 throws when [col.itemListeners[id]] is an inherited
    member. *)
Definition not_a_function : Error :=
TypeError "col.itemListeners[id].forEach is not a function".

(** The body of [changedIds.forEach], lines 113-121.  The test of line 114
    and the one of line 117 read ordinary objects: an id that names a member
    of [Object.prototype] finds the inherited member where the object has no
    own property.  At line 115 that creates a cache entry; at line 118 the
    inherited member has no [forEach], and the call throws.  (An assignment
    to ["__proto__"] at line 115 would go to the accessor and create no own
    property; [Object.keys(changed)] never holds that id.) *)
Definition update_node (crdt : CRDTImpl Delta Data Value) (collection : string)
    (data : gmap string Data) (id : string) : M unit :=
let* col := read_col collection "cache" in
let* _ :=
  if slot_truthy (obj_get (cache col) id)
  then (if decide (id = "__proto__") then ret tt
        else write_cache collection id (js_get data id))
  else ret tt in
let* col := read_col collection "itemListeners" in
match obj_get (itemListeners col) id with
| Own fns => forEach fns (λ fn, emit (EvItemListener id fn (value crdt (js_get data id))))
| Inherited => throw not_a_function
| Missing => ret tt
end.

(** The body of the second [msg.deltas.forEach], lines 137-140;
    [None] is [null]. *)
Definition max_step (crdt : CRDTImpl Delta Data Value) (maxStamp : option string)
    (d : NodeDelta Delta) : option string :=
let stamp := deltas_stamp crdt (nd_delta d) in
match maxStamp with
| None => Some stamp
| Some m => if negb (string_truthy m) || string_gt stamp m then Some stamp else Some m
end.

Definition max_stamp (crdt : CRDTImpl Delta Data Value) (ds : list (NodeDelta Delta))
  : option string :=
fold_left (max_step crdt) ds None.

(** The callback mapped over [messages]. *)
Definition handleMessage (crdt : CRDTImpl Delta Data Value)
    (persistence : DeltaPersistence Delta Data Cursor P) (hlc : HLCImpl)
    (recvClock : HLC → M unit) (msg : ServerMessage Delta Cursor) : M unit :=
match msg with
| SSync collection serverCursor ds =>
    let changedIds := object_keys (map nd_node ds) in
    let deltasWithStamps := map (with_stamp crdt) ds in
    let* data := call_applyDeltas persistence collection deltasWithStamps
                   serverCursor (deltas_apply crdt) in
    let* _ := notify_listeners crdt collection data changedIds in
    let* _ := forEach changedIds (update_node crdt collection data) in
    let* _ :=
      if negb (length changedIds =? 0)%nat
      then sendCrossTabChanges {| pc_col := collection; pc_nodes := changedIds |}
      else ret tt in
    match max_stamp crdt ds with
    | Some maxStamp =>
        if string_truthy maxStamp
        then let* _ := emit (EvRecvClock (unpack hlc maxStamp)) in
             recvClock (unpack hlc maxStamp)
        else ret tt
    | None => ret tt
    end
| SAck collection deltaStamp =>
    call_deleteDeltas persistence collection deltaStamp
end.

(** [Promise.all(messages.map(...))], on the schedule that runs the
    callbacks one after the other in the order of [messages].  Every
    callback runs, whatever became of the others; the promise rejects with
    the first rejection.  (In the code every callback runs up to its first
    [await] before any of them goes on, and the rejection reported is the
    first in time; the statements about batches below are about ack
    messages, whose callback has no [await] before its call.) *)
Fixpoint handleMessages (crdt : CRDTImpl Delta Data Value)
    (persistence : DeltaPersistence Delta Data Cursor P) (hlc : HLCImpl)
    (recvClock : HLC → M unit) (messages : list (ServerMessage Delta Cursor))
  : M unit :=
match messages with
| [] => ret tt
| msg :: rest =>
    λ w, let (w1, r1) := handleMessage crdt persistence hlc recvClock msg w in
         let (w2, r2) := handleMessages crdt persistence hlc recvClock rest w1 in
         (w2, let? _ := r1 in r2)
end.

(** *** The clock closures of createClient (lines 162-176) *)

Definition getStamp (hlc : HLCImpl) (clockPersist : ClockPersist CP) : M string :=
let* local := gets clock in
let* now := dateNow in
let* _ := modify (set_clock (inc hlc local now)) in
let* c := gets clock in
let* _ := call_clockPersist_set clockPersist c in
let* c := gets clock in
ret (pack hlc c).

Definition setClock (clockPersist : ClockPersist CP) (newClock : HLC) : M unit :=
let* _ := modify (set_clock newClock) in
let* c := gets clock in
call_clockPersist_set clockPersist c.

Definition recvClock (hlc : HLCImpl) (clockPersist : ClockPersist CP) (newClock : HLC)
  : M unit :=
let* local := gets clock in
let* now := dateNow in
let* _ := modify (set_clock (recv hlc local newClock now)) in
let* c := gets clock in
call_clockPersist_set clockPersist c.

(** Line 160: one fresh collection state per collection of the
    persistence. *)
Definition createClient_state (persistence : DeltaPersistence Delta Data Cursor P)
  : gmap string (CollectionState Data) :=
fold_left (λ st id, <[id := newCollection]> st) (collections persistence) ∅.

(** The inbound handler as [createClient] hands it to the network
    (lines 181-189). *)
Definition client_handleMessages (crdt : CRDTImpl Delta Data Value)
    (clockPersist : ClockPersist CP)
    (persistence : DeltaPersistence Delta Data Cursor P) (hlc : HLCImpl)
    (messages : list (ServerMessage Delta Cursor)) : M unit :=
handleMessages crdt persistence hlc (recvClock hlc clockPersist) messages.

(** *** Runs of the clock *)

(** What a caller does to the clock between two stamps. *)
Inductive ClockOp :=
| OpGetStamp
| OpRecvClock (remote : HLC).

(** What a run shows of each operation: the outcome of a [getStamp()], or
    the clock that was received. *)
Inductive ClockSeen :=
| Issued (r : Result string)
| Received (remote : HLC).

Fixpoint run_clock (hlc : HLCImpl) (clockPersist : ClockPersist CP)
    (ops : list ClockOp) (w : World) : list ClockSeen :=
match ops with
| [] => []
| OpGetStamp :: rest =>
    let (w', r) := getStamp hlc clockPersist w in
    Issued r :: run_clock hlc clockPersist rest w'
| OpRecvClock remote :: rest =>
    let (w', _) := recvClock hlc clockPersist remote w in
    Received remote :: run_clock hlc clockPersist rest w'
end.

(** *** What the inbound loop leaves behind, in closed form *)

(** Lines 114-116 for one id. *)
Definition cache_step (data : gmap string Data) (c : gmap string Data) (id : string)
  : gmap string Data :=
if slot_truthy (obj_get c id)
then (if decide (id = "__proto__") then c else <[id := js_get data id]> c)
else c.

(** The cache after lines 114-116 have run for each of [ids]. *)
Definition cache_after (data : gmap string Data) (ids : list string)
    (c : gmap string Data) : gmap string Data :=
fold_left (cache_step data) ids c.

(** Whether line 118 throws for [id]: the per-node listeners have no own
    entry for it and it names a member of [Object.prototype]. *)
Definition throws_at (il : gmap string (list Listener)) (id : string) : bool :=
match obj_get il id with
| Inherited => true
| _ => false
end.

(** The ids for which the body of [changedIds.forEach] runs: all of them up
    to the first one it throws for, that one included. *)
Fixpoint ran_ids (il : gmap string (list Listener)) (ids : list string) : list string :=
match ids with
| [] => []
| id :: rest => if throws_at il id then [id] else id :: ran_ids il rest
end.

Definition loop_completes (il : gmap string (list Listener)) (ids : list string) : bool :=
forallb (λ id, negb (throws_at il id)) ids.

(** The calls of per-node listeners made by [changedIds.forEach]
    (lines 117-121 for each id). *)
Definition item_events (crdt : CRDTImpl Delta Data Value)
    (col : CollectionState Data) (data : gmap string Data) (ids : list string)
  : list Ev :=
flat_map (λ id, match itemListeners col !! id with
                | Some fns => map (λ fn, EvItemListener id fn (value crdt (js_get data id))) fns
                | None => []
                end) ids.

(** The calls made for a sync message before the clock is touched, when
    [col] is the state of the collection and [data] what [applyDeltas]
    returned. *)
Definition sync_events (crdt : CRDTImpl Delta Data Value) (collection : string)
    (serverCursor : Cursor) (ds : list (NodeDelta Delta))
    (col : CollectionState Data) (data : gmap string Data) : list Ev :=
let changedIds := object_keys (map nd_node ds) in
[EvApplyDeltas collection (map (with_stamp crdt) ds) serverCursor]
++ map (λ listener, EvListener listener (changes_of crdt data changedIds)) (listeners col)
++ item_events crdt col data (ran_ids (itemListeners col) changedIds)
++ (if loop_completes (itemListeners col) changedIds
       && negb (length changedIds =? 0)%nat
    then [EvSendCrossTabChanges {| pc_col := collection; pc_nodes := changedIds |}]
    else []).

(** The calls made for the clock at the end of a sync message, when the
    clock is received by [recvClock] of [createClient]: [local] is the clock
    and [now] the wall time at that point. *)
Definition clock_events (crdt : CRDTImpl Delta Data Value) (hlc : HLCImpl)
    (ds : list (NodeDelta Delta)) (local : HLC) (now : Z) : list Ev :=
match max_stamp crdt ds with
| Some m =>
    if string_truthy m
    then [EvRecvClock (unpack hlc m);
          EvClockPersistSet (recv hlc local (unpack hlc m) now)]
    else []
| None => []
end.

End Client.

(** ** Sorting the log by kind of call *)

Definition is_listener_call {Delta Cursor Value} (e : Event Delta Cursor Value) : bool :=
match e with EvListener _ _ => true | _ => false end.

Definition is_item_listener_call {Delta Cursor Value} (e : Event Delta Cursor Value) : bool :=
match e with EvItemListener _ _ _ => true | _ => false end.

Definition is_recv_call {Delta Cursor Value} (e : Event Delta Cursor Value) : bool :=
match e with EvRecvClock _ => true | _ => false end.

Definition is_apply_call {Delta Cursor Value} (e : Event Delta Cursor Value) : bool :=
match e with EvApplyDeltas _ _ _ => true | _ => false end.

Definition is_broadcast_call {Delta Cursor Value} (e : Event Delta Cursor Value) : bool :=
match e with EvSendCrossTabChanges _ => true | _ => false end.

(** The calls that concern the clock: the receive and the write to the
    clock store. *)
Definition is_clock_call {Delta Cursor Value} (e : Event Delta Cursor Value) : bool :=
match e with EvRecvClock _ | EvClockPersistSet _ => true | _ => false end.

(** ** The hybrid logical clock of the spec *)

Module StdHLC.

(** Modelled from the spec: [hlc.inc] of the hybrid-logical-clock package,
    which is not among the sources.  The spec: [getStamp] "increments the
    local clock against current wall time"; the rule is the send rule of a
    hybrid logical clock. *)
Definition inc (local : HLC) (now : Z) : HLC :=
if (timestamp local <? now)%Z
then {| node := node local; timestamp := now; counter := 0 |}
else {| node := node local; timestamp := timestamp local;
        counter := counter local + 1 |}.

(** Modelled from the spec: [hlc.recv] of the hybrid-logical-clock package,
    which is not among the sources.  The spec: "the standard
    hybrid-logical-clock receive rule (local clock advances to be causally
    after both its previous value and the remote stamp)". *)
Definition recv (local remote : HLC) (now : Z) : HLC :=
let ts := Z.max (Z.max (timestamp local) (timestamp remote)) now in
let c :=
  if (ts =? timestamp local)%Z && (ts =? timestamp remote)%Z
  then (Z.max (counter local) (counter remote) + 1)%Z
  else if (ts =? timestamp local)%Z then (counter local + 1)%Z
  else if (ts =? timestamp remote)%Z then (counter remote + 1)%Z
  else 0%Z in
{| node := node local; timestamp := ts; counter := c |}.

(** Modelled from the spec: "the clock's total order", which the spec does
    not spell out; it is taken on the fields in the order timestamp,
    counter, node. *)
Definition ltb (a b : HLC) : bool :=
(timestamp a <? timestamp b)%Z
|| ((timestamp a =? timestamp b)%Z
    && ((counter a <? counter b)%Z
        || ((counter a =? counter b)%Z && String.ltb (node a) (node b)))).

Definition lt (a b : HLC) : Prop := ltb a b = true.

(** The order on timestamp and counter alone; it decides [lt] whenever it
    holds. *)
Definition earlier (a b : HLC) : Prop :=
(timestamp a < timestamp b)%Z
∨ (timestamp a = timestamp b ∧ (counter a < counter b)%Z).

End StdHLC.

(** The package with the clock rules of the spec, whatever its packed
    form. *)
Definition std_hlc (pack : HLC → string) (unpack : string → HLC) : HLCImpl :=
{| inc := StdHLC.inc; recv := StdHLC.recv; pack := pack; unpack := unpack |}.

(** ** Collaborators for the examples *)

Module Fixture.

(** A last-writer-wins register per node: the data of a node is
    [undefined] or an object holding the stamp and the value last written. *)
Inductive Node :=
| NUndefined
| NReg (stamp : string) (v : nat).

Record Write := {
  w_stamp : string;
  w_value : nat
}.

#[global] Instance node_js : JsValue Node := {|
  undefined := NUndefined;
  truthy n := match n with NUndefined => false | NReg _ _ => true end;
  truthy_undefined := eq_refl
|}.

Definition lww : CRDTImpl Write Node (option nat) := {|
  deltas_stamp := w_stamp;
  deltas_apply d w :=
    match d with
    | NUndefined => NReg (w_stamp w) (w_value w)
    | NReg s _ => if string_gt (w_stamp w) s then NReg (w_stamp w) (w_value w) else d
    end;
  value d := match d with NUndefined => None | NReg _ v => Some v end
|}.

(** A numeric cursor, [None] when there is none; zero is falsy. *)
#[global] Instance cursor_js : JsValue (option nat) := {|
  undefined := None;
  truthy c := match c with Some (S _) => true | _ => false end;
  truthy_undefined := eq_refl
|}.

(** Modelled from the spec: a persistence collaborator, none of which is
    among the sources.  The spec (section 6 and 4.3): [deltas] and
    [getServerCursor] read the pending deltas and the cursor of a collection;
    [applyDeltas] merges the deltas into the persisted nodes with the merge
    function, records the new cursor and returns the mapping from node id
    to data; [deleteDeltas] drops the pending deltas of the collection "up
    to and including" the stamp. *)
Record Mem := {
  mem_pending : gmap string (list (PendingDelta Write));
  mem_cursor : gmap string (option nat);
  mem_data : gmap string (gmap string Node)
}.

Definition mem_persistence (cols : list string)
  : DeltaPersistence Write Node (option nat) Mem := {|
  collections := cols;
  deltas id m := Ok (default [] (mem_pending m !! id));
  getServerCursor id m := Ok (js_get (mem_cursor m) id);
  applyDeltas col ds cursor merge m :=
    let merged :=
      fold_left (λ d pd, <[pd_node pd := merge (js_get d (pd_node pd)) (pd_delta pd)]> d)
                ds (default ∅ (mem_data m !! col)) in
    ({| mem_pending := mem_pending m;
        mem_cursor := <[col := cursor]> (mem_cursor m);
        mem_data := <[col := merged]> (mem_data m) |}, Ok merged);
  deleteDeltas col upto m :=
    ({| mem_pending :=
          alter (filter (λ pd, string_gt (pd_stamp pd) upto = true)) col (mem_pending m);
        mem_cursor := mem_cursor m;
        mem_data := mem_data m |}, Ok tt)
|}.

(** A clock store that keeps the last clock written, and one that is full. *)
Definition mem_clock : ClockPersist (option HLC) :=
{| cp_set c _ := (Some c, Ok tt) |}.

Definition full_clock : ClockPersist (option HLC) :=
{| cp_set _ s := (s, Throw (Rejected "QuotaExceededError")) |}.

(** A packed form for the examples: the node id alone is kept apart, the
    two numbers are read in decimal before it, separated by colons.  No
    statement below depends on it. *)
Fixpoint until_colon (s : string) : string * string :=
match s with
| EmptyString => (EmptyString, EmptyString)
| String a rest =>
    if (nat_of_ascii a =? 58)%nat then (EmptyString, rest)
    else let (h, t) := until_colon rest in (String a h, t)
end.

Definition test_unpack (s : string) : HLC :=
let (ts, r) := until_colon s in
let (c, n) := until_colon r in
{| node := n;
   timestamp := Z.of_N (default 0%N (digits_value 0 ts));
   counter := Z.of_N (default 0%N (digits_value 0 c)) |}.

Definition test_pack (c : HLC) : string :=
(DecimalString.NilZero.string_of_uint (N.to_uint (Z.to_N (timestamp c))) ++ ":"
 ++ DecimalString.NilZero.string_of_uint (N.to_uint (Z.to_N (counter c))) ++ ":"
 ++ node c)%string.

Definition test_hlc : HLCImpl := std_hlc test_pack test_unpack.

Definition todos (col : CollectionState Node) : gmap string (CollectionState Node) :=
{[ "todos" := col ]}.

Definition empty_mem : Mem :=
{| mem_pending := ∅; mem_cursor := ∅; mem_data := ∅ |}.

(** A world with the one collection ["todos"] in the given state, over the
    given store; the wall clock reads 1000, 1001, ... *)
Definition world (col : CollectionState Node) (m : Mem)
  : @World Write Node (option nat) (option nat) Mem (option HLC) :=
{| store := m; state := todos col;
   clock := {| node := "n0"; timestamp := 900; counter := 0 |};
   clockStore := None; wall := λ n, (1000 + Z.of_nat n)%Z; tick := 0;
   log := [] |}.

Definition todos_persistence : DeltaPersistence Write Node (option nat) Mem :=
mem_persistence ["todos"].

(** Collection states: one with a collection-wide listener and a listener on
    node ["t1"], nothing cached; one with ["t1"] cached and no listener. *)
Definition col_listening : CollectionState Node :=
{| cache := ∅; listeners := [3%nat]; itemListeners := {[ "t1" := [7%nat] ]} |}.

Definition col_cached : CollectionState Node :=
{| cache := {[ "t1" := NReg "0900:0:n0" 1 ]}; listeners := []; itemListeners := ∅ |}.

(** Deltas from the server on nodes ["t1"] and ["t2"]. *)
Definition delta_t1 : NodeDelta Write :=
{| nd_node := "t1"; nd_delta := {| w_stamp := "1000:0:srv"; w_value := 4 |} |}.

Definition delta_t2 : NodeDelta Write :=
{| nd_node := "t2"; nd_delta := {| w_stamp := "2000:5:srv"; w_value := 8 |} |}.

(** A store with one pending delta for ["todos"] and a cursor for
    ["notes"] only. *)
Definition mem_pending_t1 : Mem :=
{| mem_pending :=
     {[ "todos" := [ {| pd_node := "t1";
                        pd_delta := {| w_stamp := "2000:0:n0"; w_value := 2 |};
                        pd_stamp := "2000:0:n0" |} ] ]};
   mem_cursor := {[ "notes" := Some 3%nat ]};
   mem_data := ∅ |}.

(** What the merge of [delta_t1] and [delta_t2] into an empty store
    returns, and the store after it. *)
Definition merged_t1_t2 : gmap string Node :=
{[ "t1" := NReg "1000:0:srv" 4; "t2" := NReg "2000:5:srv" 8 ]}.

Definition mem_after (col : string) (cursor : option nat) (merged : gmap string Node)
  : Mem :=
{| mem_pending := ∅; mem_cursor := {[ col := cursor ]};
   mem_data := {[ col := merged ]} |}.

(** The inbound handler of a client over the empty store, with the one
    collection ["todos"] in state [col]. *)
Definition handle (msg : ServerMessage Write (option nat)) (col : CollectionState Node) :=
handleMessage lww todos_persistence test_hlc (recvClock test_hlc mem_clock) msg
  (world col empty_mem).

Definition remote_clock : HLC :=
{| node := "srv"; timestamp := 2000; counter := 5 |}.

(** The message owed for ["todos"] over [mem_pending_t1]. *)
Definition todos_message : ClientMessage Write (option nat) :=
CSync "todos" None
  [{| nd_node := "t1"; nd_delta := {| w_stamp := "2000:0:n0"; w_value := 2 |} |}].

(** A persistence whose merge entry point rejects. *)
Definition failing_persistence : DeltaPersistence Write Node (option nat) Mem := {|
  collections := ["todos"];
  deltas id m := Ok (default [] (mem_pending m !! id));
  getServerCursor id m := Ok (js_get (mem_cursor m) id);
  applyDeltas col ds cursor merge m := (m, Throw (Rejected "TransactionInactiveError"));
  deleteDeltas col upto m := (m, Ok tt)
|}.

(** A delta whose stamp is the empty string, and what its merge into an
    empty store returns. *)
Definition delta_unstamped : NodeDelta Write :=
{| nd_node := "t1"; nd_delta := {| w_stamp := ""; w_value := 9 |} |}.

Definition merged_unstamped : gmap string Node :=
{[ "t1" := NReg "" 9 ]}.

(** A store in which ["todos"] has the cursor 0 and nothing pending. *)
Definition mem_zero_cursor : Mem :=
{| mem_pending := ∅; mem_cursor := {[ "todos" := Some 0%nat ]}; mem_data := ∅ |}.

(** Deltas on nodes named ["constructor"] and ["__proto__"]. *)
Definition delta_constructor : NodeDelta Write :=
{| nd_node := "constructor"; nd_delta := {| w_stamp := "1000:0:srv"; w_value := 4 |} |}.

Definition delta_proto : NodeDelta Write :=
{| nd_node := "__proto__"; nd_delta := {| w_stamp := "1000:0:srv"; w_value := 4 |} |}.

(** A collection whose cache holds [undefined] for ["t1"]. *)
Definition col_falsy : CollectionState Node :=
{| cache := {[ "t1" := NUndefined ]}; listeners := []; itemListeners := ∅ |}.

(** The world of [world], with a wall clock that stands still. *)
Definition frozen_world (col : CollectionState Node) (m : Mem)
  : @World Write Node (option nat) (option nat) Mem (option HLC) :=
{| store := m; state := todos col;
   clock := {| node := "n0"; timestamp := 900; counter := 0 |};
   clockStore := None; wall := λ _, 1000%Z; tick := 0;
   log := [] |}.

End Fixture.

(** * Properties *)

(** ** Strings under [>] *)

Lemma string_gt_lt (a b : string) : string_gt a b = true ↔ String_as_OT.lt b a.
Proof.
  unfold string_gt. rewrite <- String_as_OT.cmp_lt.
  unfold String_as_OT.cmp. rewrite (String.compare_antisym b a).
  destruct (String.compare a b); simpl; split; congruence.
Qed.

Lemma string_not_gt (a b : string) : string_gt a b = false → a = b ∨ String_as_OT.lt a b.
Proof.
  unfold string_gt. destruct (String.compare a b) eqn:E; try discriminate; intros _.
  - left. by apply String.compare_eq_iff.
  - right. by apply String_as_OT.cmp_lt.
Qed.

Lemma string_gt_irrefl (a : string) : string_gt a a = false.
Proof.
  destruct (string_gt a a) eqn:E; [|done].
  apply string_gt_lt in E. by apply String_as_OT.lt_not_eq in E.
Qed.

Lemma string_le_trans (a b c : string) :
  string_gt a b = false → string_gt b c = false → string_gt a c = false.
Proof.
  intros Hab Hbc. destruct (string_gt a c) eqn:E; [|done].
  apply string_gt_lt in E.
  apply string_not_gt in Hab as [->|Hab]; apply string_not_gt in Hbc as [->|Hbc].
  - by apply String_as_OT.lt_not_eq in E.
  - pose proof (String_as_OT.lt_trans _ _ _ E Hbc) as H.
    by apply String_as_OT.lt_not_eq in H.
  - pose proof (String_as_OT.lt_trans _ _ _ E Hab) as H.
    by apply String_as_OT.lt_not_eq in H.
  - pose proof (String_as_OT.lt_trans _ _ _ (String_as_OT.lt_trans _ _ _ E Hab) Hbc) as H.
    by apply String_as_OT.lt_not_eq in H.
Qed.

(** ** Lists *)

Lemma elem_of_map {A B} (f : A → B) (l : list A) (y : B) :
  y ∈ map f l ↔ ∃ x, y = f x ∧ x ∈ l.
Proof. exact (list_elem_of_fmap f l y). Qed.

Lemma filter_map_none {A B} (p : B → bool) (f : A → B) (xs : list A) :
  (∀ x, p (f x) = false) → List.filter p (map f xs) = [].
Proof.
  intros Hp. induction xs as [|x xs IH]; simpl; [done|]. by rewrite Hp.
Qed.

Lemma filter_map_all {A B} (p : B → bool) (f : A → B) (xs : list A) :
  (∀ x, p (f x) = true) → List.filter p (map f xs) = map f xs.
Proof.
  intros Hp. induction xs as [|x xs IH]; simpl; [done|]. by rewrite Hp, IH.
Qed.

(** ** The keys of the object of changed ids *)

Lemma elem_of_assign_keys (ks own : list string) (k : string) :
  k ∈ fold_left assign_key ks own ↔ k ∈ own ∨ (k ∈ ks ∧ k ≠ "__proto__").
Proof.
  revert own. induction ks as [|x ks IH]; intros own; simpl.
  - rewrite elem_of_nil. tauto.
  - rewrite IH, elem_of_cons. unfold assign_key.
    destruct (decide (x = "__proto__")) as [->|Hx0].
    + split; [tauto|]. intros [?|[[->|?] ?]]; tauto.
    + destruct (decide (x ∈ own)) as [Hx|Hx].
      * split; [tauto|]. intros [?|[[->|?] ?]]; tauto.
      * rewrite elem_of_app, list_elem_of_singleton. split.
        -- intros [[?| ->]|[? ?]]; tauto.
        -- intros [?|[[->|?] ?]]; tauto.
Qed.

Lemma NoDup_assign_keys (ks own : list string) :
  NoDup own → NoDup (fold_left assign_key ks own).
Proof.
  revert own. induction ks as [|x ks IH]; intros own Hown; simpl; [done|].
  apply IH. unfold assign_key.
  destruct (decide (x = "__proto__")); [done|].
  destruct (decide (x ∈ own)) as [Hx|Hx]; [done|].
  apply NoDup_app. split; [done|]. split.
  - intros y Hy Hy'. apply list_elem_of_singleton in Hy'. by subst.
  - apply NoDup_singleton.
Qed.

Lemma elem_of_ordinary_own_keys (own : list string) (k : string) :
  k ∈ ordinary_own_keys own ↔ k ∈ own.
Proof.
  unfold ordinary_own_keys.
  rewrite elem_of_app, merge_sort_Permutation, !list_elem_of_filter.
  destruct (is_array_index k); intuition congruence.
Qed.

Lemma NoDup_ordinary_own_keys (own : list string) :
  NoDup own → NoDup (ordinary_own_keys own).
Proof.
  intros Hown. unfold ordinary_own_keys. apply NoDup_app. split; [|split].
  - rewrite merge_sort_Permutation. by apply NoDup_filter.
  - intros k. rewrite merge_sort_Permutation, !list_elem_of_filter.
    intros [H1 _] [H2 _]. congruence.
  - by apply NoDup_filter.
Qed.

(** The changed ids are the node ids assigned, but for ["__proto__"]. *)
Lemma elem_of_object_keys (ks : list string) (k : string) :
  k ∈ object_keys ks ↔ k ∈ ks ∧ k ≠ "__proto__".
Proof.
  unfold object_keys, assigned_keys.
  rewrite elem_of_ordinary_own_keys, elem_of_assign_keys, elem_of_nil. tauto.
Qed.

Lemma NoDup_object_keys (ks : list string) : NoDup (object_keys ks).
Proof.
  unfold object_keys, assigned_keys.
  apply NoDup_ordinary_own_keys, NoDup_assign_keys, NoDup_nil_2.
Qed.

Lemma object_keys_nil : object_keys [] = [].
Proof. reflexivity. Qed.

Lemma proto_not_in_object_keys (ks : list string) : "__proto__" ∉ object_keys ks.
Proof. rewrite elem_of_object_keys. tauto. Qed.

Lemma is_prototype_member_false (k : string) :
  is_prototype_member k = false → k ≠ "__proto__".
Proof. intros Hk ->. vm_compute in Hk. discriminate. Qed.

(** A message with a delta, none of them on a node named like a member of
    [Object.prototype], has a changed id. *)
Lemma object_keys_nonempty (ks : list string) :
  ks ≠ [] → (∀ k, k ∈ ks → is_prototype_member k = false) → object_keys ks ≠ [].
Proof.
  destruct ks as [|k ks]; [done|]. intros _ Hks Hnil.
  assert (k ∈ object_keys (k :: ks)) as Hk.
  { apply elem_of_object_keys. split; [left|].
    apply is_prototype_member_false, Hks. left. }
  rewrite Hnil in Hk. by apply elem_of_nil in Hk.
Qed.

(** ** Running the client *)

Section Properties.
Context {Delta Data Value Cursor : Type}.
Context {data_js : JsValue Data} {cursor_js : JsValue Cursor}.
Context {P CP : Type}.

Local Abbreviation W := (@World Delta Data Value Cursor P CP).
Local Abbreviation Ev := (Event Delta Cursor Value).

Lemma set_log_id (w : W) : set_log (log w) w = w.
Proof. by destruct w. Qed.

Lemma forEach_emit {A} (f : A → Ev) (xs : list A) (w : W) :
  forEach xs (λ x, emit (f x)) w = (set_log (log w ++ map f xs) w, Ok tt).
Proof.
  revert w. induction xs as [|x xs IH]; intros w; simpl.
  - by rewrite app_nil_r, set_log_id.
  - unfold bind. simpl. rewrite IH. simpl. by rewrite <- app_assoc.
Qed.

Lemma read_col_tracked (collection prop : string) (col : CollectionState Data) (w : W) :
  state w !! collection = Some col →
  read_col collection prop w = (w, Ok col).
Proof. intros Hcol. unfold read_col, bind, gets. by rewrite Hcol. Qed.

Lemma read_col_untracked (collection prop : string) (w : W) :
  state w !! collection = None →
  read_col collection prop w
  = (w, Throw (TypeError
            ("Cannot read properties of undefined (reading '" ++ prop ++ "')")%string)).
Proof. intros Hcol. unfold read_col, bind, gets. by rewrite Hcol. Qed.

Lemma item_events_with_cache (crdt : CRDTImpl Delta Data Value) (c : gmap string Data)
    (col : CollectionState Data) (data : gmap string Data) (ids : list string) :
  item_events (Cursor:=Cursor) crdt (with_cache c col) data ids
  = item_events crdt col data ids.
Proof. reflexivity. Qed.

(** One round of [changedIds.forEach]. *)
Lemma update_node_run (crdt : CRDTImpl Delta Data Value) (collection : string)
    (data : gmap string Data) (id : string) (col : CollectionState Data) (w : W) :
  state w !! collection = Some col →
  update_node crdt collection data id w
  = (set_log (log w ++ item_events crdt col data [id])
       (set_state (<[collection := with_cache (cache_step data (cache col) id) col]>
                     (state w)) w),
     if throws_at (itemListeners col) id then Throw not_a_function else Ok tt).
Proof.
  intros Hcol. unfold update_node, bind.
  rewrite (read_col_tracked _ _ col) by done.
  assert (<[collection := with_cache (cache col) col]> (state w) = state w) as Hid.
  { apply insert_id. rewrite Hcol. by destruct col. }
  assert (∀ (w0 : W) (col0 : CollectionState Data),
    itemListeners col0 = itemListeners col →
    match obj_get (itemListeners col0) id with
    | Own fns =>
        forEach fns (λ fn, emit (EvItemListener id fn (value crdt (js_get data id))))
    | Inherited => throw not_a_function
    | Missing => ret tt
    end w0
    = (set_log (log w0 ++ item_events crdt col data [id]) w0,
       if throws_at (itemListeners col) id then Throw not_a_function else Ok tt)) as Hfire.
  { intros w0 col0 ->. unfold throws_at, obj_get, item_events. simpl.
    rewrite app_nil_r. destruct (itemListeners col !! id) as [fns|].
    - by rewrite forEach_emit.
    - destruct (is_prototype_member id); unfold throw, ret; simpl;
        by rewrite app_nil_r, set_log_id. }
  unfold cache_step.
  destruct (slot_truthy (obj_get (cache col) id)) eqn:Htruthy.
  - destruct (decide (id = "__proto__")) as [Hid0|Hid0].
    + unfold ret at 1. rewrite (read_col_tracked _ _ col) by done.
      rewrite (Hfire w col eq_refl), Hid. by destruct w.
    + unfold write_cache, bind. rewrite (read_col_tracked _ _ col) by done.
      simpl.
      rewrite (read_col_tracked _ _ (with_cache (<[id:=js_get data id]> (cache col)) col))
        by (simpl; apply lookup_insert_eq).
      by rewrite (Hfire _ (with_cache (<[id:=js_get data id]> (cache col)) col) eq_refl).
  - unfold ret at 1. rewrite (read_col_tracked _ _ col) by done.
    rewrite (Hfire w col eq_refl), Hid. by destruct w.
Qed.

Lemma forEach_update_node (crdt : CRDTImpl Delta Data Value) (collection : string)
    (data : gmap string Data) (ids : list string) (col : CollectionState Data) (w : W) :
  state w !! collection = Some col →
  forEach ids (update_node crdt collection data) w
  = (set_log (log w ++ item_events crdt col data (ran_ids (itemListeners col) ids))
       (set_state
          (<[collection := with_cache
               (cache_after data (ran_ids (itemListeners col) ids) (cache col)) col]>
             (state w)) w),
     if loop_completes (itemListeners col) ids then Ok tt else Throw not_a_function).
Proof.
  revert col w. induction ids as [|id ids IH]; intros col w Hcol.
  - simpl. unfold ret. rewrite app_nil_r.
    assert (<[collection := with_cache (cache col) col]> (state w) = state w) as ->.
    { apply insert_id. rewrite Hcol. by destruct col. }
    by destruct w.
  - simpl. unfold bind. rewrite (update_node_run _ _ _ _ col) by done.
    destruct (throws_at (itemListeners col) id) eqn:Hthrows; simpl.
    + reflexivity.
    + rewrite (IH (with_cache (cache_step data (cache col) id) col))
        by (simpl; apply lookup_insert_eq).
      simpl. rewrite insert_insert_eq, app_nil_r, <- app_assoc. reflexivity.
Qed.

(** A sync message for a tracked collection whose merge succeeds, in closed
    form: all the steps before the clock, then the clock when the loop over
    the changed ids ran to its end. *)
Lemma handleMessage_sync (crdt : CRDTImpl Delta Data Value)
    (persistence : DeltaPersistence Delta Data Cursor P) (hlc : HLCImpl)
    (rc : HLC → M unit) (collection : string) (serverCursor : Cursor)
    (ds : list (NodeDelta Delta)) (col : CollectionState Data) (w : W)
    (p' : P) (data : gmap string Data) :
  state w !! collection = Some col →
  applyDeltas persistence collection (map (with_stamp crdt) ds) serverCursor
    (deltas_apply crdt) (store w) = (p', Ok data) →
  handleMessage crdt persistence hlc rc (SSync collection serverCursor ds) w
  = let w1 :=
      set_log (log w ++ sync_events crdt collection serverCursor ds col data)
        (set_state
           (<[collection := with_cache
                (cache_after data
                   (ran_ids (itemListeners col) (object_keys (map nd_node ds)))
                   (cache col)) col]>
              (state w))
           (set_store p' w)) in
    if loop_completes (itemListeners col) (object_keys (map nd_node ds))
    then match max_stamp crdt ds with
         | Some m =>
             if string_truthy m
             then rc (unpack hlc m) (set_log (log w1 ++ [EvRecvClock (unpack hlc m)]) w1)
             else (w1, Ok tt)
         | None => (w1, Ok tt)
         end
    else (w1, Throw not_a_function).
Proof.
  intros Hcol Happly. unfold handleMessage, bind at 1.
  unfold call_applyDeltas, bind at 1. simpl. rewrite Happly.
  unfold bind at 1. unfold notify_listeners, bind at 1.
  rewrite (read_col_tracked _ _ col) by done.
  assert (∀ w0 : W,
    (if negb (length (listeners col) =? 0)%nat
     then forEach (listeners col)
            (λ listener, emit (EvListener listener
               (changes_of crdt data (object_keys (map nd_node ds)))))
     else ret tt) w0
    = (set_log (log w0 ++ map (λ listener, EvListener listener
               (changes_of crdt data (object_keys (map nd_node ds)))) (listeners col)) w0,
       Ok tt)) as Hnotify.
  { intros w0. destruct (listeners col) as [|l ls].
    - simpl. unfold ret. by rewrite app_nil_r, set_log_id.
    - change (negb (length (l :: ls) =? 0)%nat) with true. cbv iota.
      apply forEach_emit. }
  rewrite Hnotify. unfold bind at 1.
  rewrite (forEach_update_node _ _ _ _ col) by done.
  unfold sync_events. simpl.
  destruct (loop_completes (itemListeners col) (object_keys (map nd_node ds))); simpl.
  - unfold bind at 1.
    destruct (length (object_keys (map nd_node ds)) =? 0)%nat; simpl;
      unfold ret, bind; simpl; rewrite <- ?app_assoc; simpl;
      rewrite ?app_nil_r; destruct (max_stamp crdt ds) as [m|]; try reflexivity;
      destruct (string_truthy m); simpl; rewrite <- ?app_assoc; reflexivity.
  - rewrite <- ?app_assoc. simpl. by rewrite app_nil_r.
Qed.

(** The same message when the collection is not a key of [state]. *)
Lemma handleMessage_sync_untracked (crdt : CRDTImpl Delta Data Value)
    (persistence : DeltaPersistence Delta Data Cursor P) (hlc : HLCImpl)
    (rc : HLC → M unit) (collection : string) (serverCursor : Cursor)
    (ds : list (NodeDelta Delta)) (w : W) (p' : P) (data : gmap string Data) :
  state w !! collection = None →
  applyDeltas persistence collection (map (with_stamp crdt) ds) serverCursor
    (deltas_apply crdt) (store w) = (p', Ok data) →
  handleMessage crdt persistence hlc rc (SSync collection serverCursor ds) w
  = (set_log (log w ++ [EvApplyDeltas collection (map (with_stamp crdt) ds) serverCursor])
       (set_store p' w),
     Throw (TypeError "Cannot read properties of undefined (reading 'listeners')")).
Proof.
  intros Hcol Happly. unfold handleMessage, bind at 1.
  unfold call_applyDeltas, bind at 1. simpl. rewrite Happly.
  unfold bind at 1. unfold notify_listeners, bind at 1.
  rewrite read_col_untracked by done. reflexivity.
Qed.

Lemma handleMessage_ack (crdt : CRDTImpl Delta Data Value)
    (persistence : DeltaPersistence Delta Data Cursor P) (hlc : HLCImpl)
    (rc : HLC → M unit) (collection deltaStamp : string) (w : W) :
  handleMessage crdt persistence hlc rc (SAck collection deltaStamp) w
  = (set_store (deleteDeltas persistence collection deltaStamp (store w)).1
       (set_log (log w ++ [EvDeleteDeltas collection deltaStamp]) w),
     (deleteDeltas persistence collection deltaStamp (store w)).2).
Proof.
  unfold handleMessage, call_deleteDeltas, bind. simpl.
  by destruct (deleteDeltas persistence collection deltaStamp (store w)).
Qed.

Lemma recvClock_run (hlc : HLCImpl) (clockPersist : ClockPersist CP)
    (newClock : HLC) (w : W) :
  recvClock hlc clockPersist newClock w
  = let c := recv hlc (clock w) newClock (wall w (tick w)) in
    (set_clockStore (cp_set clockPersist c (clockStore w)).1
       (set_log (log w ++ [EvClockPersistSet c])
          (set_clock c (set_tick (S (tick w)) w))),
     (cp_set clockPersist c (clockStore w)).2).
Proof.
  unfold recvClock, call_clockPersist_set, bind. simpl.
  by destruct (cp_set clockPersist _ (clockStore w)).
Qed.

Lemma getStamp_run (hlc : HLCImpl) (clockPersist : ClockPersist CP) (w : W) :
  getStamp hlc clockPersist w
  = let c := inc hlc (clock w) (wall w (tick w)) in
    (set_clockStore (cp_set clockPersist c (clockStore w)).1
       (set_log (log w ++ [EvClockPersistSet c])
          (set_clock c (set_tick (S (tick w)) w))),
     let? _ := (cp_set clockPersist c (clockStore w)).2 in Ok (pack hlc c)).
Proof.
  unfold getStamp, call_clockPersist_set, bind. simpl.
  by destruct (cp_set clockPersist _ (clockStore w)) as [s [[]|e]].
Qed.

Lemma setClock_run (clockPersist : ClockPersist CP) (newClock : HLC) (w : W) :
  setClock clockPersist newClock w
  = (set_clockStore (cp_set clockPersist newClock (clockStore w)).1
       (set_log (log w ++ [EvClockPersistSet newClock]) (set_clock newClock w)),
     (cp_set clockPersist newClock (clockStore w)).2).
Proof.
  unfold setClock, call_clockPersist_set, bind. simpl.
  by destruct (cp_set clockPersist _ (clockStore w)).
Qed.

(** ** The outbound message builder *)

(** The message owed for a collection with the given pending deltas and
    cursor, if any. *)
Lemma getMessage_run (persistence : DeltaPersistence Delta Data Cursor P)
    (reconnected : bool) (p : P) (id : string)
    (pending : list (PendingDelta Delta)) (cursor : Cursor) :
  deltas persistence id p = Ok pending →
  getServerCursor persistence id p = Ok cursor →
  getMessage persistence reconnected p id
  = Ok (if negb (length pending =? 0)%nat || negb (truthy cursor) || reconnected
        then Some (CSync id cursor (map strip_stamp pending))
        else None).
Proof.
  intros Hd Hc. unfold getMessage. rewrite Hd. simpl. rewrite Hc. simpl.
  by destruct (negb (length pending =? 0)%nat || negb (truthy cursor) || reconnected).
Qed.

Lemma result_all_ok {A B} (f : A → Result B) (g : A → B) (xs : list A) :
  (∀ x, x ∈ xs → f x = Ok (g x)) → result_all f xs = Ok (map g xs).
Proof.
  induction xs as [|x xs IH]; intros Hf; simpl; [done|].
  rewrite (Hf x) by left. simpl. rewrite IH; [done|].
  intros y Hy. apply Hf. by right.
Qed.

Lemma owed_condition (pending : list (PendingDelta Delta)) (cursor : Cursor)
    (reconnected : bool) :
  negb (length pending =? 0)%nat || negb (truthy cursor) || reconnected = true
  ↔ pending ≠ [] ∨ truthy cursor = false ∨ reconnected = true.
Proof.
  destruct pending as [|d pending]; simpl;
    destruct (truthy cursor); destruct reconnected; simpl; split;
    intros; try done; try (by left); try (by right; left); try (by right; right);
    destruct H as [?|[?|?]]; done.
Qed.

(** The messages owed, with the payload as [strip_stamp] makes it. *)
Lemma getMessages_owed
    (persistence : DeltaPersistence Delta Data Cursor P) (reconnected : bool)
    (p : P) (pending : string → list (PendingDelta Delta)) (cursor : string → Cursor) :
  (∀ id, id ∈ collections persistence → deltas persistence id p = Ok (pending id)) →
  (∀ id, id ∈ collections persistence →
         getServerCursor persistence id p = Ok (cursor id)) →
  ∃ msgs,
    getMessages persistence reconnected p = Ok msgs
    ∧ (∀ m, m ∈ msgs → cm_collection m ∈ collections persistence)
    ∧ ∀ id, id ∈ collections persistence →
        (CSync id (cursor id) (map strip_stamp (pending id)) ∈ msgs
         ↔ pending id ≠ [] ∨ truthy (cursor id) = false ∨ reconnected = true)
        ∧ (∀ m, m ∈ msgs → cm_collection m = id →
                m = CSync id (cursor id) (map strip_stamp (pending id))).
Proof.
  intros Hd Hc.
  set (owed := λ id,
    if negb (length (pending id) =? 0)%nat || negb (truthy (cursor id)) || reconnected
    then Some (CSync id (cursor id) (map strip_stamp (pending id)))
    else None).
  assert (∀ m, m ∈ omap id (map owed (collections persistence)) ↔
               ∃ c, c ∈ collections persistence ∧ owed c = Some m) as Hin.
  { intros m. rewrite list_elem_of_omap. split.
    - intros [o [Ho Hm]]. apply elem_of_map in Ho as [c [-> Hc']].
      exists c. by split.
    - intros [c [Hc' Hm]]. exists (owed c). split; [|done].
      apply elem_of_map. by exists c. }
  exists (omap id (map owed (collections persistence))). split; [|split].
  - unfold getMessages.
    rewrite (result_all_ok _ owed).
    + reflexivity.
    + intros c Hc'. apply getMessage_run; auto.
  - intros m Hm. apply Hin in Hm as [c [Hc' Hm]]. unfold owed in Hm.
    destruct (_ || _ || _); [|done]. by simplify_eq.
  - intros c Hc'. split.
    + rewrite Hin, <- owed_condition. split.
      * intros [c' [_ Hm]]. unfold owed in Hm.
        destruct (negb (length (pending c') =? 0)%nat || _ || _) eqn:E; [|done].
        by simplify_eq.
      * intros Hcond. exists c. split; [done|]. unfold owed. by rewrite Hcond.
    + intros m Hm Hcol. apply Hin in Hm as [c' [_ Hm]]. unfold owed in Hm.
      destruct (_ || _ || _); [|done]. by simplify_eq.
Qed.

(** C1, as amended.  When the reads of the persistence succeed,
    [getMessages] answers with a list of sync messages in which, for every
    known collection, the message for that collection occurs if and only if
    the collection has a pending delta, or its server cursor is falsy (it is
    absent, or it is a value such as 0 that [!serverCursor] takes for
    absent), or the caller passed [reconnected = true].  That message carries
    the current cursor and one [{ node, delta }] per pending delta, in their
    order, with the node and the delta of the pending delta.  The list holds
    no other message for the collection and no message for any other
    collection. *)
Theorem getMessages_includes_iff
    (persistence : DeltaPersistence Delta Data Cursor P) (reconnected : bool)
    (p : P) (pending : string → list (PendingDelta Delta)) (cursor : string → Cursor) :
  (∀ id, id ∈ collections persistence → deltas persistence id p = Ok (pending id)) →
  (∀ id, id ∈ collections persistence →
         getServerCursor persistence id p = Ok (cursor id)) →
  ∃ msgs,
    getMessages persistence reconnected p = Ok msgs
    ∧ (∀ m, m ∈ msgs → cm_collection m ∈ collections persistence)
    ∧ ∀ id, id ∈ collections persistence →
        (CSync id (cursor id)
           (map (λ d, {| nd_node := pd_node d; nd_delta := pd_delta d |}) (pending id))
           ∈ msgs
         ↔ pending id ≠ [] ∨ truthy (cursor id) = false ∨ reconnected = true)
        ∧ (∀ m, m ∈ msgs → cm_collection m = id →
                m = CSync id (cursor id)
                      (map (λ d, {| nd_node := pd_node d; nd_delta := pd_delta d |})
                           (pending id))).
Proof. exact (getMessages_owed persistence reconnected p pending cursor). Qed.

(** ** The inbound message applier, with the clock of the client *)

Lemma handleMessage_sync_client (crdt : CRDTImpl Delta Data Value)
    (persistence : DeltaPersistence Delta Data Cursor P) (hlc : HLCImpl)
    (clockPersist : ClockPersist CP) (collection : string) (serverCursor : Cursor)
    (ds : list (NodeDelta Delta)) (col : CollectionState Data) (w : W)
    (p' : P) (data : gmap string Data) :
  state w !! collection = Some col →
  applyDeltas persistence collection (map (with_stamp crdt) ds) serverCursor
    (deltas_apply crdt) (store w) = (p', Ok data) →
  let w' := (handleMessage crdt persistence hlc (recvClock hlc clockPersist)
               (SSync collection serverCursor ds) w).1 in
  store w' = p'
  ∧ state w' = <[collection := with_cache
                   (cache_after data
                      (ran_ids (itemListeners col) (object_keys (map nd_node ds)))
                      (cache col)) col]>
                 (state w)
  ∧ log w' = log w ++ sync_events crdt collection serverCursor ds col data
                   ++ (if loop_completes (itemListeners col) (object_keys (map nd_node ds))
                       then clock_events crdt hlc ds (clock w) (wall w (tick w))
                       else []).
Proof.
  intros Hcol Happly.
  rewrite (handleMessage_sync _ _ _ _ _ _ _ col w p' data) by done.
  unfold clock_events.
  remember (sync_events crdt collection serverCursor ds col data) as evs.
  destruct (loop_completes (itemListeners col) (object_keys (map nd_node ds))); simpl.
  - destruct (max_stamp crdt ds) as [m|]; simpl.
    + destruct (string_truthy m); simpl.
      * rewrite recvClock_run. simpl. by rewrite <- !app_assoc.
      * by rewrite app_nil_r.
    + by rewrite app_nil_r.
  - by rewrite app_nil_r.
Qed.

Lemma filter_item_events (p : Ev → bool) (b : bool)
    (crdt : CRDTImpl Delta Data Value) (col : CollectionState Data)
    (data : gmap string Data) (ids : list string) :
  (∀ id fn v, p (EvItemListener id fn v) = b) →
  List.filter p (item_events crdt col data ids)
  = if b then item_events crdt col data ids else [].
Proof.
  intros Hp. unfold item_events.
  induction ids as [|id ids IH]; simpl; [by destruct b|].
  rewrite List.filter_app, IH. destruct (itemListeners col !! id) as [fns|]; simpl; [|done].
  destruct b.
  - by rewrite filter_map_all by (intros; apply Hp).
  - by rewrite filter_map_none by (intros; apply Hp).
Qed.

Lemma filter_clock_events (p : Ev → bool) (crdt : CRDTImpl Delta Data Value)
    (hlc : HLCImpl) (ds : list (NodeDelta Delta)) (local : HLC) (now : Z) :
  (∀ c, p (EvRecvClock c) = false) → (∀ c, p (EvClockPersistSet c) = false) →
  List.filter p (clock_events crdt hlc ds local now) = [].
Proof.
  intros H1 H2. unfold clock_events.
  destruct (max_stamp crdt ds) as [m|]; [|done].
  destruct (string_truthy m); [|done]. simpl. by rewrite H1, H2.
Qed.

Lemma filter_clock_part (p : Ev → bool) (b : bool) (crdt : CRDTImpl Delta Data Value)
    (hlc : HLCImpl) (ds : list (NodeDelta Delta)) (local : HLC) (now : Z) :
  (∀ c, p (EvRecvClock c) = false) → (∀ c, p (EvClockPersistSet c) = false) →
  List.filter p (if b then clock_events crdt hlc ds local now else []) = [].
Proof. intros H1 H2. destruct b; [by apply filter_clock_events|done]. Qed.

(** *** The loop over the changed ids, when no id names an inherited member *)

Lemma throws_at_member (il : gmap string (list Listener)) (id : string) :
  throws_at il id = true → is_prototype_member id = true.
Proof.
  unfold throws_at, obj_get. destruct (il !! id); [done|].
  by destruct (is_prototype_member id).
Qed.

Lemma ran_ids_all (il : gmap string (list Listener)) (ids : list string) :
  (∀ id, id ∈ ids → is_prototype_member id = false) →
  ran_ids il ids = ids ∧ loop_completes il ids = true.
Proof.
  induction ids as [|id ids IH]; intros Hids; simpl; [done|].
  destruct (throws_at il id) eqn:Hthrows.
  - apply throws_at_member in Hthrows. rewrite (Hids id) in Hthrows by left. done.
  - destruct IH as [-> ->]; [|done]. intros id' Hid'. apply Hids. by right.
Qed.

Lemma ran_ids_subset (il : gmap string (list Listener)) (ids : list string) (N : string) :
  N ∈ ran_ids il ids → N ∈ ids.
Proof.
  induction ids as [|id ids IH]; simpl; [done|].
  destruct (throws_at il id).
  - intros HN. apply list_elem_of_singleton in HN as ->. left.
  - intros HN. apply elem_of_cons in HN as [->|HN]; [left|right; auto].
Qed.

Lemma changed_ids_ordinary (ds : list (NodeDelta Delta)) :
  (∀ d, d ∈ ds → is_prototype_member (nd_node d) = false) →
  ∀ id, id ∈ object_keys (map nd_node ds) → is_prototype_member id = false.
Proof.
  intros Hds id Hid. apply elem_of_object_keys in Hid as [Hid _].
  apply elem_of_map in Hid as [d [-> Hd]]. by apply Hds.
Qed.

(** X18.  For a sync message on a tracked collection whose merge succeeds,
    the calls of collection-wide listeners made while it is processed are
    exactly one call per registered listener, in their order, each with the
    same list of changes; that list has one pair per changed node id, the
    changed ids being the node ids of the deltas of the message other than
    ["__proto__"] (which [Object.keys(changed)] cannot hold), and pairs each
    id with the value projected from the data the persistence returned for
    it.  Nothing in it looks at the cache. *)
Theorem listeners_notified_once (crdt : CRDTImpl Delta Data Value)
    (persistence : DeltaPersistence Delta Data Cursor P) (hlc : HLCImpl)
    (clockPersist : ClockPersist CP) (collection : string) (serverCursor : Cursor)
    (ds : list (NodeDelta Delta)) (col : CollectionState Data) (w : W)
    (p' : P) (data : gmap string Data) :
  state w !! collection = Some col →
  applyDeltas persistence collection (map (with_stamp crdt) ds) serverCursor
    (deltas_apply crdt) (store w) = (p', Ok data) →
  ∃ (calls : list Ev) (changes : list (string * Value)),
    log (handleMessage crdt persistence hlc (recvClock hlc clockPersist)
           (SSync collection serverCursor ds) w).1 = log w ++ calls
    ∧ List.filter is_listener_call calls
      = map (λ listener, EvListener listener changes) (listeners col)
    ∧ NoDup (map fst changes)
    ∧ (∀ id, id ∈ map fst changes ↔ id ∈ map nd_node ds ∧ id ≠ "__proto__")
    ∧ (∀ id v, (id, v) ∈ changes → v = value crdt (js_get data id)).
Proof.
  intros Hcol Happly.
  destruct (handleMessage_sync_client crdt persistence hlc clockPersist
              collection serverCursor ds col w p' data Hcol Happly)
    as (_ & _ & Hlog).
  eexists _, (changes_of crdt data (object_keys (map nd_node ds))).
  assert (map fst (changes_of crdt data (object_keys (map nd_node ds)))
          = object_keys (map nd_node ds)) as Hfst.
  { unfold changes_of. rewrite map_map. simpl. apply map_id. }
  split; [exact Hlog|]. split; [|split; [|split]].
  - rewrite List.filter_app, filter_clock_part, app_nil_r by done.
    unfold sync_events. simpl. rewrite !List.filter_app.
    rewrite filter_map_all by done.
    rewrite (filter_item_events _ false) by done.
    destruct (_ && _); simpl; by rewrite app_nil_r.
  - rewrite Hfst. apply NoDup_object_keys.
  - intros id. rewrite Hfst. apply elem_of_object_keys.
  - intros id v Hin. unfold changes_of in Hin.
    apply elem_of_map in Hin as [id' [Heq _]]. by simplify_eq.
Qed.

(** ** The cache under inbound merges *)

Lemma cache_after_cons (data : gmap string Data) (id : string) (ids : list string)
    (c : gmap string Data) :
  cache_after data (id :: ids) c = cache_after data ids (cache_step data c id).
Proof. reflexivity. Qed.

Lemma obj_get_same {A} (c c' : gmap string A) (N : string) :
  c' !! N = c !! N → obj_get c' N = obj_get c N.
Proof. unfold obj_get. by intros ->. Qed.

(** The entry for [N] after the loop: the merged data when the loop ran for
    [N] and found the cache truthy there, the entry as it was otherwise. *)
Lemma cache_after_lookup (data : gmap string Data) (ids : list string)
    (c : gmap string Data) (N : string) :
  cache_after data ids c !! N
  = if bool_decide (N ∈ ids ∧ N ≠ "__proto__") && slot_truthy (obj_get c N)
    then Some (js_get data N)
    else c !! N.
Proof.
  revert c. induction ids as [|id ids IH]; intros c.
  - change (cache_after data [] c) with c.
    rewrite bool_decide_eq_false_2; [done|]. intros [HN _].
    by apply elem_of_nil in HN.
  - rewrite cache_after_cons, IH. unfold cache_step.
    destruct (decide (id = N)) as [->|Hne].
    + destruct (decide (N = "__proto__")) as [Hp|Hp].
      * rewrite !bool_decide_eq_false_2 by tauto. simpl.
        by destruct (slot_truthy (obj_get c N)).
      * rewrite (bool_decide_eq_true_2 (N ∈ N :: ids ∧ _)) by (split; [left|done]).
        destruct (slot_truthy (obj_get c N)) eqn:Htruthy; simpl.
        -- rewrite lookup_insert_eq. by destruct (_ && _).
        -- rewrite Htruthy. by rewrite andb_false_r.
    + assert ((if slot_truthy (obj_get c id)
               then if decide (id = "__proto__") then c else <[id:=js_get data id]> c
               else c) !! N = c !! N) as Hsame.
      { destruct (slot_truthy (obj_get c id)); [|done].
        destruct (decide (id = "__proto__")); [done|]. by apply lookup_insert_ne. }
      rewrite (obj_get_same c _ N Hsame), Hsame.
      destruct (decide (N ∈ ids ∧ N ≠ "__proto__")) as [HN|HN].
      * rewrite !bool_decide_eq_true_2; [done|split; [right|]; tauto|done].
      * rewrite !bool_decide_eq_false_2; [done| |done].
        intros [HN' ?]. apply elem_of_cons in HN' as [->|HN']; tauto.
Qed.

(** X17.  For a sync message on a tracked collection whose merge succeeds:
    a node id that does not name a member of [Object.prototype] and has no
    cache entry before the message is processed has none after; and when no
    node id of the message names such a member, every node of the message
    whose cache entry is truthy (which is how line 114 finds that a node
    "has already been cached") has the data the persistence returned for it
    as its entry afterwards. *)
Theorem cache_isolation (crdt : CRDTImpl Delta Data Value)
    (persistence : DeltaPersistence Delta Data Cursor P) (hlc : HLCImpl)
    (clockPersist : ClockPersist CP) (collection : string) (serverCursor : Cursor)
    (ds : list (NodeDelta Delta)) (col : CollectionState Data) (w : W)
    (p' : P) (data : gmap string Data) :
  state w !! collection = Some col →
  applyDeltas persistence collection (map (with_stamp crdt) ds) serverCursor
    (deltas_apply crdt) (store w) = (p', Ok data) →
  ∃ col',
    state (handleMessage crdt persistence hlc (recvClock hlc clockPersist)
             (SSync collection serverCursor ds) w).1 !! collection = Some col'
    ∧ (∀ N, is_prototype_member N = false →
            cache col !! N = None → cache col' !! N = None)
    ∧ ((∀ d, d ∈ ds → is_prototype_member (nd_node d) = false) →
       ∀ N v, N ∈ map nd_node ds → cache col !! N = Some v → truthy v = true →
              cache col' !! N = Some (js_get data N)).
Proof.
  intros Hcol Happly.
  destruct (handleMessage_sync_client crdt persistence hlc clockPersist
              collection serverCursor ds col w p' data Hcol Happly)
    as (_ & Hstate & _).
  eexists. split; [|split].
  - rewrite Hstate. apply lookup_insert_eq.
  - intros N HN Hc. simpl. rewrite cache_after_lookup.
    unfold obj_get. rewrite Hc, HN. simpl. by rewrite andb_false_r.
  - intros Hds N v HN Hc Hv. simpl. rewrite cache_after_lookup.
    destruct (ran_ids_all (itemListeners col) (object_keys (map nd_node ds))
                (changed_ids_ordinary ds Hds)) as [-> _].
    assert (N ≠ "__proto__") as Hp.
    { apply elem_of_map in HN as [d [-> Hd]]. by apply is_prototype_member_false, Hds. }
    rewrite bool_decide_eq_true_2 by (by rewrite elem_of_object_keys).
    unfold obj_get. rewrite Hc. simpl. by rewrite Hv.
Qed.

(** ** Per-node listeners *)



(** ** Cursor-only sync messages *)

(** C3, as amended.  A sync message without deltas, on a tracked collection
    and with a merge that succeeds, is processed to the end without error:
    the new server cursor is handed to [persistence.applyDeltas] (with no
    delta), no per-node listener is called, nothing is broadcast, the cache
    and the clock stay as they are; and every registered collection-wide
    listener is called once, with an empty list of changes. *)
Theorem empty_sync_run (crdt : CRDTImpl Delta Data Value)
    (persistence : DeltaPersistence Delta Data Cursor P) (hlc : HLCImpl)
    (clockPersist : ClockPersist CP) (collection : string) (serverCursor : Cursor)
    (col : CollectionState Data) (w : W) (p' : P) (data : gmap string Data) :
  state w !! collection = Some col →
  applyDeltas persistence collection [] serverCursor
    (deltas_apply crdt) (store w) = (p', Ok data) →
  handleMessage crdt persistence hlc (recvClock hlc clockPersist)
    (SSync collection serverCursor []) w
  = (set_log (log w ++ EvApplyDeltas collection [] serverCursor
                       :: map (λ listener, EvListener listener []) (listeners col))
       (set_store p' w),
     Ok tt).
Proof.
  intros Hcol Happly.
  rewrite (handleMessage_sync _ _ _ _ _ _ _ col w p' data) by done.
  simpl. unfold sync_events. simpl. rewrite app_nil_r.
  assert (<[collection := with_cache (cache col) col]> (state w) = state w) as ->.
  { apply insert_id. rewrite Hcol. by destruct col. }
  by destruct w.
Qed.

(** ** The clock after a sync message *)

Lemma string_gt_empty (s : string) : string_gt "" s = false.
Proof. by destruct s. Qed.

Lemma string_le_antisym (a b : string) :
  string_gt a b = false → string_gt b a = false → a = b.
Proof.
  intros Hab Hba.
  apply string_not_gt in Hab as [->|Hab]; [done|].
  apply string_not_gt in Hba as [->|Hba]; [done|].
  pose proof (String_as_OT.lt_trans _ _ _ Hab Hba) as H.
  by apply String_as_OT.lt_not_eq in H.
Qed.

Lemma max_stamp_fold (crdt : CRDTImpl Delta Data Value)
    (ds : list (NodeDelta Delta)) (m0 : string) :
  ∃ m, fold_left (max_step crdt) ds (Some m0) = Some m
       ∧ (m = m0 ∨ m ∈ map (λ d, deltas_stamp crdt (nd_delta d)) ds)
       ∧ string_gt m0 m = false
       ∧ ∀ s, s ∈ map (λ d, deltas_stamp crdt (nd_delta d)) ds → string_gt s m = false.
Proof.
  revert m0. induction ds as [|d ds IH]; intros m0; simpl.
  - exists m0. repeat split; auto using string_gt_irrefl.
    intros s Hs. by apply elem_of_nil in Hs.
  - set (stamp := deltas_stamp crdt (nd_delta d)).
    destruct (negb (string_truthy m0) || string_gt stamp m0) eqn:Hstep.
    + assert (string_gt m0 stamp = false) as Hle.
      { apply orb_true_iff in Hstep as [Hfalsy|Hgt].
        - destruct m0; [apply string_gt_empty|done].
        - destruct (string_gt m0 stamp) eqn:E; [|done].
          apply string_gt_lt in E, Hgt.
          pose proof (String_as_OT.lt_trans _ _ _ E Hgt) as H.
          by apply String_as_OT.lt_not_eq in H. }
      destruct (IH stamp) as (m & Hm & Hin & Hle' & Hall).
      exists m. split; [done|]. split; [|split].
      * right. destruct Hin as [->|Hin]; [left|by right].
      * by apply (string_le_trans _ stamp).
      * intros s Hs. apply elem_of_cons in Hs as [->|Hs]; auto.
    + apply orb_false_iff in Hstep as [_ Hgt].
      destruct (IH m0) as (m & Hm & Hin & Hle' & Hall).
      exists m. split; [done|]. split; [|split].
      * destruct Hin as [->|Hin]; [by left|right; by right].
      * done.
      * intros s Hs. apply elem_of_cons in Hs as [->|Hs]; auto.
        by apply (string_le_trans _ m0).
Qed.

Lemma max_stamp_spec (crdt : CRDTImpl Delta Data Value)
    (ds : list (NodeDelta Delta)) :
  match max_stamp crdt ds with
  | None => ds = []
  | Some m =>
      m ∈ map (λ d, deltas_stamp crdt (nd_delta d)) ds
      ∧ ∀ s, s ∈ map (λ d, deltas_stamp crdt (nd_delta d)) ds → string_gt s m = false
  end.
Proof.
  destruct ds as [|d ds]; [done|]. unfold max_stamp. simpl.
  destruct (max_stamp_fold crdt ds (deltas_stamp crdt (nd_delta d)))
    as (m & -> & Hin & Hle & Hall).
  split.
  - destruct Hin as [->|Hin]; [left|by right].
  - intros s Hs. apply elem_of_cons in Hs as [->|Hs]; auto.
Qed.

(** C6, as amended.  For a sync message with at least one delta whose stamp
    is a non-empty string, on a tracked collection, with a merge that
    succeeds and no node id that names a member of [Object.prototype]: the
    clock's receive operation is called exactly once while the message is
    processed, with the unpacked form of a stamp of the message that no
    stamp of the message exceeds under [>] on strings; and the clock is
    afterwards the one [hlc.recv] makes of the previous clock, that stamp
    and the wall time. *)
Theorem recvClock_once_with_max (crdt : CRDTImpl Delta Data Value)
    (persistence : DeltaPersistence Delta Data Cursor P) (hlc : HLCImpl)
    (clockPersist : ClockPersist CP) (collection : string) (serverCursor : Cursor)
    (ds : list (NodeDelta Delta)) (col : CollectionState Data) (w : W)
    (p' : P) (data : gmap string Data) :
  state w !! collection = Some col →
  applyDeltas persistence collection (map (with_stamp crdt) ds) serverCursor
    (deltas_apply crdt) (store w) = (p', Ok data) →
  (∃ d, d ∈ ds ∧ deltas_stamp crdt (nd_delta d) ≠ "") →
  (∀ d, d ∈ ds → is_prototype_member (nd_node d) = false) →
  ∃ (m : string) (calls : list Ev),
    m ∈ map (λ d, deltas_stamp crdt (nd_delta d)) ds
    ∧ (∀ s, s ∈ map (λ d, deltas_stamp crdt (nd_delta d)) ds → string_gt s m = false)
    ∧ log (handleMessage crdt persistence hlc (recvClock hlc clockPersist)
             (SSync collection serverCursor ds) w).1 = log w ++ calls
    ∧ List.filter is_recv_call calls = [EvRecvClock (unpack hlc m)]
    ∧ clock (handleMessage crdt persistence hlc (recvClock hlc clockPersist)
               (SSync collection serverCursor ds) w).1
      = recv hlc (clock w) (unpack hlc m) (wall w (tick w)).
Proof.
  intros Hcol Happly [d0 [Hd0 Hstamp0]] Hds.
  pose proof (max_stamp_spec crdt ds) as Hmax.
  destruct (max_stamp crdt ds) as [m|] eqn:Hm; [|by subst; apply elem_of_nil in Hd0].
  destruct Hmax as [Hin Hmax].
  assert (string_truthy m = true) as Ht.
  { destruct m; [|done].
    specialize (Hmax (deltas_stamp crdt (nd_delta d0))).
    rewrite elem_of_map in Hmax.
    assert (string_gt (deltas_stamp crdt (nd_delta d0)) "" = false) as Hgt
      by (apply Hmax; by exists d0).
    by destruct (deltas_stamp crdt (nd_delta d0)). }
  destruct (handleMessage_sync_client crdt persistence hlc clockPersist
              collection serverCursor ds col w p' data Hcol Happly)
    as (_ & _ & Hlog).
  destruct (ran_ids_all (itemListeners col) (object_keys (map nd_node ds))
              (changed_ids_ordinary ds Hds)) as [Hran Hcompl].
  rewrite Hcompl in Hlog.
  exists m. eexists. split; [done|]. split; [done|]. split; [exact Hlog|]. split.
  - rewrite List.filter_app. unfold clock_events. rewrite Hm, Ht.
    unfold sync_events. simpl. rewrite !List.filter_app.
    rewrite filter_map_none by done.
    rewrite (filter_item_events _ false) by done.
    by destruct (_ && _).
  - rewrite (handleMessage_sync _ _ _ _ _ _ _ col w p' data) by done.
    cbv zeta. rewrite Hcompl, Hm, Ht, recvClock_run. reflexivity.
Qed.

(** ** Ack messages and protocol anomalies *)

(** C10.  Processing an ack message makes one call, the request to the
    persistence to delete the pending deltas of the named collection up to
    the acknowledged stamp, and its outcome is the outcome of that call.
    The [state] object (caches and listeners), the clock, the clock store
    and the wall clock are as before, and the log shows no other call: no
    listener, no broadcast, no clock receive. *)
Theorem ack_only_deletes (crdt : CRDTImpl Delta Data Value)
    (persistence : DeltaPersistence Delta Data Cursor P) (hlc : HLCImpl)
    (rc : HLC → M unit) (collection deltaStamp : string) (w : W) :
  let r := handleMessage crdt persistence hlc rc (SAck collection deltaStamp) w in
  (store r.1, r.2) = deleteDeltas persistence collection deltaStamp (store w)
  ∧ log r.1 = log w ++ [EvDeleteDeltas collection deltaStamp]
  ∧ state r.1 = state w
  ∧ clock r.1 = clock w
  ∧ clockStore r.1 = clockStore w
  ∧ tick r.1 = tick w
  ∧ wall r.1 = wall w.
Proof.
  rewrite handleMessage_ack. simpl.
  by destruct (deleteDeltas persistence collection deltaStamp (store w)).
Qed.

(** C4, as amended.  An ack for which [persistence.deleteDeltas] finds
    nothing to delete (it answers without error and leaves its store as it
    was) leaves the client as it was and raises no error.  A sync message
    naming a collection that is not a key of [state] is not a no-op: its
    deltas and cursor are still handed to [persistence.applyDeltas], and
    when that succeeds processing stops with a [TypeError], before any
    listener, cache, broadcast or clock step. *)
Theorem anomalies_run (crdt : CRDTImpl Delta Data Value)
    (persistence : DeltaPersistence Delta Data Cursor P) (hlc : HLCImpl)
    (clockPersist : ClockPersist CP) (collection : string) (w : W) :
  (∀ deltaStamp,
     deleteDeltas persistence collection deltaStamp (store w) = (store w, Ok tt) →
     handleMessage crdt persistence hlc (recvClock hlc clockPersist)
       (SAck collection deltaStamp) w
     = (set_log (log w ++ [EvDeleteDeltas collection deltaStamp]) w, Ok tt))
  ∧ (∀ serverCursor ds p' data,
       state w !! collection = None →
       applyDeltas persistence collection (map (with_stamp crdt) ds) serverCursor
         (deltas_apply crdt) (store w) = (p', Ok data) →
       handleMessage crdt persistence hlc (recvClock hlc clockPersist)
         (SSync collection serverCursor ds) w
       = (set_log (log w ++ [EvApplyDeltas collection (map (with_stamp crdt) ds)
                               serverCursor])
            (set_store p' w),
          Throw (TypeError "Cannot read properties of undefined (reading 'listeners')"))).
Proof.
  split.
  - intros deltaStamp Hdel. rewrite handleMessage_ack, Hdel. simpl. by destruct w.
  - intros serverCursor ds p' data Hcol Happly.
    by apply handleMessage_sync_untracked with (data := data).
Qed.

(** ** The clock closures *)

(** C9.  When the write to the clock store throws, each of [getStamp],
    [recvClock] and [setClock] throws the same error to its caller, and the
    [clock] variable holds the new clock all the same: the incremented one,
    the one merged with the received clock, or the one given. *)
Theorem clock_persist_failure (hlc : HLCImpl) (clockPersist : ClockPersist CP)
    (w : W) (e : Error) :
  ((cp_set clockPersist (inc hlc (clock w) (wall w (tick w))) (clockStore w)).2
   = Throw e →
   (getStamp hlc clockPersist w).2 = Throw e
   ∧ clock (getStamp hlc clockPersist w).1 = inc hlc (clock w) (wall w (tick w)))
  ∧ (∀ newClock,
       (cp_set clockPersist (recv hlc (clock w) newClock (wall w (tick w)))
          (clockStore w)).2 = Throw e →
       (recvClock hlc clockPersist newClock w).2 = Throw e
       ∧ clock (recvClock hlc clockPersist newClock w).1
         = recv hlc (clock w) newClock (wall w (tick w)))
  ∧ (∀ newClock,
       (cp_set clockPersist newClock (clockStore w)).2 = Throw e →
       (setClock clockPersist newClock w).2 = Throw e
       ∧ clock (setClock clockPersist newClock w).1 = newClock).
Proof.
  split; [|split].
  - intros Hset. rewrite getStamp_run. simpl. by rewrite Hset.
  - intros newClock Hset. rewrite recvClock_run. simpl. by rewrite Hset.
  - intros newClock Hset. rewrite setClock_run. simpl. by rewrite Hset.
Qed.

(** ** Stamps over a run of the clock *)

Lemma earlier_trans (a b c : HLC) :
  StdHLC.earlier a b → StdHLC.earlier b c → StdHLC.earlier a c.
Proof. unfold StdHLC.earlier. lia. Qed.

Lemma earlier_lt (a b : HLC) : StdHLC.earlier a b → StdHLC.lt a b.
Proof.
  unfold StdHLC.earlier, StdHLC.lt, StdHLC.ltb. intros [Hts|[Hts Hc]].
  - apply Z.ltb_lt in Hts. by rewrite Hts.
  - apply Z.eqb_eq in Hts. apply Z.ltb_lt in Hc. rewrite Hts, Hc. simpl.
    apply orb_true_r.
Qed.

Lemma inc_earlier (local : HLC) (now : Z) :
  StdHLC.earlier local (StdHLC.inc local now).
Proof.
  unfold StdHLC.earlier, StdHLC.inc.
  destruct (timestamp local <? now)%Z eqn:E; simpl.
  - apply Z.ltb_lt in E. lia.
  - lia.
Qed.

Lemma recv_earlier (local remote : HLC) (now : Z) :
  StdHLC.earlier local (StdHLC.recv local remote now)
  ∧ StdHLC.earlier remote (StdHLC.recv local remote now).
Proof.
  unfold StdHLC.earlier, StdHLC.recv. cbv zeta. cbn [timestamp counter].
  pose proof (Z.le_max_l (Z.max (timestamp local) (timestamp remote)) now).
  pose proof (Z.le_max_l (timestamp local) (timestamp remote)).
  pose proof (Z.le_max_r (timestamp local) (timestamp remote)).
  set (ts := Z.max (Z.max (timestamp local) (timestamp remote)) now) in *.
  destruct (Z.eqb_spec ts (timestamp local)); destruct (Z.eqb_spec ts (timestamp remote));
    cbn [andb]; lia.
Qed.

(** Every stamp issued in a run is the packed form of a clock that comes
    after the clock the run started from. *)
Lemma run_clock_above (pk : HLC → string) (unpk : string → HLC)
    (clockPersist : ClockPersist CP) (ops : list ClockOp) (w : W) (s : string) :
  Issued (Ok s) ∈ run_clock (std_hlc pk unpk) clockPersist ops w →
  ∃ c, s = pk c ∧ StdHLC.earlier (clock w) c.
Proof.
  revert w. induction ops as [|op ops IH]; intros w Hin; simpl in Hin.
  - by apply elem_of_nil in Hin.
  - destruct op as [|remote].
    + rewrite getStamp_run in Hin. cbv zeta in Hin.
      apply elem_of_cons in Hin as [Heq|Hin].
      * exists (StdHLC.inc (clock w) (wall w (tick w))). split; [|apply inc_earlier].
        simpl in Heq. destruct (cp_set clockPersist _ _).2; simpl in Heq; congruence.
      * apply IH in Hin as (c & -> & Hc). exists c. split; [done|].
        simpl in Hc. eapply earlier_trans; [apply inc_earlier|exact Hc].
    + rewrite recvClock_run in Hin. cbv zeta in Hin.
      apply elem_of_cons in Hin as [Heq|Hin]; [done|].
      apply IH in Hin as (c & -> & Hc). exists c. split; [done|].
      simpl in Hc. eapply earlier_trans; [|exact Hc]. apply recv_earlier.
Qed.

(** C7.  In any run of [getStamp()] calls and clock receives, over the
    clock rules of the spec and whatever the clock store does: a stamp
    returned by a later [getStamp()] is the packed form of a clock that is
    strictly greater, in the clock's order, than the clock packed in any
    stamp returned earlier and than any clock received earlier. *)
Theorem stamps_strictly_increase (pk : HLC → string) (unpk : string → HLC)
    (clockPersist : ClockPersist CP) (ops : list ClockOp) (w : W)
    (i j : nat) (sj : string) :
  i < j →
  run_clock (std_hlc pk unpk) clockPersist ops w !! j = Some (Issued (Ok sj)) →
  ∃ cj, sj = pk cj
    ∧ (∀ si, run_clock (std_hlc pk unpk) clockPersist ops w !! i
             = Some (Issued (Ok si)) →
             ∃ ci, si = pk ci ∧ StdHLC.lt ci cj)
    ∧ (∀ remote, run_clock (std_hlc pk unpk) clockPersist ops w !! i
                 = Some (Received remote) →
                 StdHLC.lt remote cj).
Proof.
  revert w i j. induction ops as [|op ops IH]; intros w i j Hij Hj; [done|].
  destruct j as [|j]; [lia|]. simpl in Hj |- *.
  destruct op as [|remote0].
  - rewrite getStamp_run in Hj |- *. cbv zeta in Hj |- *.
    destruct i as [|i].
    + simpl in Hj. apply list_elem_of_lookup_2, run_clock_above in Hj as (cj & -> & Hcj).
      simpl in Hcj. exists cj. split; [done|]. split.
      * intros si Hsi. simpl in Hsi.
        exists (StdHLC.inc (clock w) (wall w (tick w))). split; [|by apply earlier_lt].
        destruct (cp_set clockPersist _ _).2; simpl in Hsi; congruence.
      * intros remote Hremote. simpl in Hremote. congruence.
    + simpl in Hj |- *. apply (IH _ i j); [lia|done].
  - rewrite recvClock_run in Hj |- *. cbv zeta in Hj |- *.
    destruct i as [|i].
    + simpl in Hj. apply list_elem_of_lookup_2, run_clock_above in Hj as (cj & -> & Hcj).
      simpl in Hcj. exists cj. split; [done|]. split.
      * intros si Hsi. simpl in Hsi. congruence.
      * intros remote Hremote. simpl in Hremote. simplify_eq.
        apply earlier_lt.
        eapply earlier_trans; [|exact Hcj]. apply recv_earlier.
    + simpl in Hj |- *. apply (IH _ i j); [lia|done].
Qed.

(** ** The batch and the construction of the client *)

(** A batch of one message is that message. *)
Lemma handleMessages_singleton (crdt : CRDTImpl Delta Data Value)
    (persistence : DeltaPersistence Delta Data Cursor P) (hlc : HLCImpl)
    (rc : HLC → M unit) (msg : ServerMessage Delta Cursor) (w : W) :
  handleMessages crdt persistence hlc rc [msg] w
  = handleMessage crdt persistence hlc rc msg w.
Proof.
  simpl. destruct (handleMessage crdt persistence hlc rc msg w) as [w1 [[]|e]];
    reflexivity.
Qed.

(** Every message of a batch is processed, whatever became of the ones
    before it. *)
Lemma handleMessages_cons (crdt : CRDTImpl Delta Data Value)
    (persistence : DeltaPersistence Delta Data Cursor P) (hlc : HLCImpl)
    (rc : HLC → M unit) (msg : ServerMessage Delta Cursor)
    (rest : list (ServerMessage Delta Cursor)) (w : W) :
  (handleMessages crdt persistence hlc rc (msg :: rest) w).1
  = (handleMessages crdt persistence hlc rc rest
       (handleMessage crdt persistence hlc rc msg w).1).1.
Proof.
  simpl. destruct (handleMessage crdt persistence hlc rc msg w) as [w1 r1]. simpl.
  by destruct (handleMessages crdt persistence hlc rc rest w1).
Qed.

Lemma createClient_state_fold (ids : list string)
    (st : gmap string (CollectionState Data)) (id : string) :
  fold_left (λ st id, <[id := newCollection]> st) ids st !! id
  = if decide (id ∈ ids) then Some newCollection else st !! id.
Proof.
  revert st. induction ids as [|x ids IH]; intros st; simpl; [done|].
  rewrite IH. destruct (decide (id ∈ ids)) as [Hin|Hin].
  - rewrite decide_True; [done|by right].
  - destruct (decide (x = id)) as [->|Hne].
    + rewrite decide_True by left. apply lookup_insert_eq.
    + rewrite decide_False.
      * by apply lookup_insert_ne.
      * intros Hin'. apply elem_of_cons in Hin' as [->|?]; done.
Qed.

(** The collections a fresh client tracks are those of the persistence. *)
Lemma createClient_state_tracks (persistence : DeltaPersistence Delta Data Cursor P)
    (id : string) :
  createClient_state persistence !! id
  = if decide (id ∈ collections persistence) then Some newCollection else None.
Proof.
  unfold createClient_state. rewrite createClient_state_fold.
  destruct (decide (id ∈ collections persistence)); [done|]. apply lookup_empty.
Qed.

End Properties.

(** * Examples on concrete clients *)

Import Fixture.

Example object_keys_ex :
  object_keys ["b"; "10"; "a"; "9"; "b"; "007"; "10"] = ["9"; "10"; "b"; "a"; "007"].
Proof. vm_compute. reflexivity. Qed.

(** Two known collections, no reconnect: ["todos"] has a pending delta and
    no cursor, ["notes"] has a cursor and nothing pending. *)
Lemma getMessages_includes_iff_witness :
  ∃ msgs,
    getMessages (mem_persistence ["todos"; "notes"]) false mem_pending_t1 = Ok msgs
    ∧ (∀ m, m ∈ msgs → cm_collection m ∈ ["todos"; "notes"])
    ∧ ∀ id, id ∈ ["todos"; "notes"] →
        (CSync id (js_get (mem_cursor mem_pending_t1) id)
           (map (λ d, {| nd_node := pd_node d; nd_delta := pd_delta d |})
                (default [] (mem_pending mem_pending_t1 !! id))) ∈ msgs
         ↔ default [] (mem_pending mem_pending_t1 !! id) ≠ []
           ∨ truthy (js_get (mem_cursor mem_pending_t1) id) = false
           ∨ false = true)
        ∧ (∀ m, m ∈ msgs → cm_collection m = id →
                m = CSync id (js_get (mem_cursor mem_pending_t1) id)
                      (map (λ d, {| nd_node := pd_node d; nd_delta := pd_delta d |})
                           (default [] (mem_pending mem_pending_t1 !! id)))).
Proof.
  apply (getMessages_includes_iff (mem_persistence ["todos"; "notes"]) false
           mem_pending_t1
           (λ id, default [] (mem_pending mem_pending_t1 !! id))
           (λ id, js_get (mem_cursor mem_pending_t1) id)).
  - intros id _. reflexivity.
  - intros id _. reflexivity.
Defined.

Example getMessages_ex :
  getMessages (mem_persistence ["todos"; "notes"]) false mem_pending_t1
  = Ok [CSync "todos" None
          [{| nd_node := "t1"; nd_delta := {| w_stamp := "2000:0:n0"; w_value := 2 |} |}]]
  ∧ getMessages (mem_persistence ["todos"; "notes"]) true mem_pending_t1
    = Ok [CSync "todos" None
            [{| nd_node := "t1"; nd_delta := {| w_stamp := "2000:0:n0"; w_value := 2 |} |}];
          CSync "notes" (Some 3%nat) []].
Proof. split; vm_compute; reflexivity. Qed.

(** C1 as stated fails: ["todos"] has a cursor, the number 0, and nothing
    pending, and a pass without reconnect sends a message for it. *)
Lemma zero_cursor_sends_message :
  mem_cursor mem_zero_cursor !! "todos" = Some (Some 0%nat)
  ∧ deltas (mem_persistence ["todos"]) "todos" mem_zero_cursor = Ok []
  ∧ getMessages (mem_persistence ["todos"]) false mem_zero_cursor
    = Ok [CSync "todos" (Some 0%nat) []].
Proof. repeat split; vm_compute; reflexivity. Qed.

(** ["t1"] is cached, ["t2"] is not; a sync message touches both. *)
Lemma cache_isolation_witness :
  ∃ col',
    state (handle (SSync "todos" (Some 5%nat) [delta_t1; delta_t2]) col_cached).1
      !! "todos" = Some col'
    ∧ (∀ N, is_prototype_member N = false →
            cache col_cached !! N = None → cache col' !! N = None)
    ∧ (∀ N v, N ∈ map nd_node [delta_t1; delta_t2] →
              cache col_cached !! N = Some v → truthy v = true →
              cache col' !! N = Some (js_get merged_t1_t2 N)).
Proof.
  destruct (cache_isolation lww todos_persistence test_hlc mem_clock "todos" (Some 5%nat)
              [delta_t1; delta_t2] col_cached (world col_cached empty_mem)
              (mem_after "todos" (Some 5%nat) merged_t1_t2) merged_t1_t2)
    as (col' & Hcol' & Habsent & Hpresent).
  - reflexivity.
  - vm_compute. reflexivity.
  - exists col'. split; [exact Hcol'|]. split; [exact Habsent|].
    apply Hpresent. intros d Hd.
    repeat (apply elem_of_cons in Hd as [->|Hd]; [reflexivity|]).
    by apply elem_of_nil in Hd.
Defined.

(** C2: the code at the failing inputs.  A delta on the node
    ["constructor"], which is not cached: line 114 finds the inherited
    member, line 115 creates a cache entry, and line 118 throws.  And a
    delta on ["t1"] whose cache entry holds [undefined]: the entry is not
    updated. *)
Lemma constructor_node_enters_cache :
  cache col_cached !! "constructor" = None
  ∧ cache <$> state (handle (SSync "todos" (Some 5%nat) [delta_constructor]) col_cached).1
                !! "todos"
    = Some {[ "constructor" := NReg "1000:0:srv" 4; "t1" := NReg "0900:0:n0" 1 ]}
  ∧ (handle (SSync "todos" (Some 5%nat) [delta_constructor]) col_cached).2
    = Throw not_a_function
  ∧ cache col_falsy !! "t1" = Some NUndefined
  ∧ cache <$> state (handle (SSync "todos" (Some 5%nat) [delta_t1]) col_falsy).1
                !! "todos"
    = Some {[ "t1" := NUndefined ]}.
Proof. repeat split; vm_compute; reflexivity. Qed.

Example cache_isolation_ex :
  cache <$> state (handle (SSync "todos" (Some 5%nat) [delta_t1; delta_t2]) col_cached).1
              !! "todos"
  = Some {[ "t1" := NReg "1000:0:srv" 4 ]}.
Proof. vm_compute. reflexivity. Qed.

(** C3 as stated fails: a sync message without deltas makes the
    collection-wide listener run (with no change). *)
Lemma empty_sync_calls_listener :
  List.filter is_listener_call (log (handle (SSync "todos" (Some 5%nat) []) col_listening).1)
  = [EvListener 3%nat []].
Proof. vm_compute. reflexivity. Qed.

Lemma empty_sync_run_witness :
  handle (SSync "todos" (Some 5%nat) []) col_listening
  = (set_log (log (world col_listening empty_mem)
              ++ EvApplyDeltas "todos" [] (Some 5%nat)
                 :: map (λ listener, EvListener listener []) (listeners col_listening))
       (set_store (mem_after "todos" (Some 5%nat) ∅) (world col_listening empty_mem)),
     Ok tt).
Proof.
  apply (empty_sync_run lww todos_persistence test_hlc mem_clock "todos" (Some 5%nat)
           col_listening (world col_listening empty_mem)
           (mem_after "todos" (Some 5%nat) ∅) ∅).
  - reflexivity.
  - vm_compute. reflexivity.
Defined.

(** C4 as stated fails: a sync message for ["notes"], which the client
    does not track, writes the cursor through the persistence and then
    throws. *)
Lemma untracked_sync_throws :
  state (world col_listening empty_mem) !! "notes" = None
  ∧ (handle (SSync "notes" (Some 5%nat) []) col_listening).2
    = Throw (TypeError "Cannot read properties of undefined (reading 'listeners')")
  ∧ store (handle (SSync "notes" (Some 5%nat) []) col_listening).1
    = mem_after "notes" (Some 5%nat) ∅
  ∧ mem_after "notes" (Some 5%nat) ∅ ≠ store (world col_listening empty_mem).
Proof.
  split; [reflexivity|]. split; [vm_compute; reflexivity|].
  split; [vm_compute; reflexivity|].
  intros Heq. apply (f_equal (λ m, mem_cursor m !! "notes")) in Heq.
  vm_compute in Heq. discriminate.
Qed.

(** A stale ack (the pending delta is later than the acknowledged stamp),
    and a sync message for the untracked ["notes"]. *)
Lemma anomalies_run_witness :
  handleMessage lww todos_persistence test_hlc (recvClock test_hlc mem_clock)
    (SAck "todos" "1000:0:n0") (world col_listening mem_pending_t1)
  = (set_log [EvDeleteDeltas "todos" "1000:0:n0"] (world col_listening mem_pending_t1),
     Ok tt)
  ∧ handle (SSync "notes" (Some 5%nat) [delta_t1]) col_listening
    = (set_log [EvApplyDeltas "notes" (map (with_stamp lww) [delta_t1]) (Some 5%nat)]
         (set_store (mem_after "notes" (Some 5%nat) {[ "t1" := NReg "1000:0:srv" 4 ]})
            (world col_listening empty_mem)),
       Throw (TypeError "Cannot read properties of undefined (reading 'listeners')")).
Proof.
  split.
  - apply (proj1 (anomalies_run lww todos_persistence test_hlc mem_clock "todos"
                    (world col_listening mem_pending_t1)) "1000:0:n0").
    vm_compute. reflexivity.
  - apply (proj2 (anomalies_run lww todos_persistence test_hlc mem_clock "notes"
                    (world col_listening empty_mem))
             (Some 5%nat) [delta_t1]
             (mem_after "notes" (Some 5%nat) {[ "t1" := NReg "1000:0:srv" 4 ]})
             {[ "t1" := NReg "1000:0:srv" 4 ]}).
    + reflexivity.
    + vm_compute. reflexivity.
Defined.



(** Two deltas: the clock is received once, with the later stamp. *)
Lemma recvClock_once_with_max_witness :
  ∃ (m : string) (calls : list (Event Write (option nat) (option nat))),
    m ∈ map (λ d, deltas_stamp lww (nd_delta d)) [delta_t2; delta_t1]
    ∧ (∀ s, s ∈ map (λ d, deltas_stamp lww (nd_delta d)) [delta_t2; delta_t1] →
            string_gt s m = false)
    ∧ log (handle (SSync "todos" (Some 5%nat) [delta_t2; delta_t1]) col_listening).1
      = log (world col_listening empty_mem) ++ calls
    ∧ List.filter is_recv_call calls = [EvRecvClock (unpack test_hlc m)]
    ∧ clock (handle (SSync "todos" (Some 5%nat) [delta_t2; delta_t1]) col_listening).1
      = recv test_hlc (clock (world col_listening empty_mem)) (unpack test_hlc m)
          (wall (world col_listening empty_mem) (tick (world col_listening empty_mem))).
Proof.
  apply (recvClock_once_with_max lww todos_persistence test_hlc mem_clock
           "todos" (Some 5%nat) [delta_t2; delta_t1] col_listening
           (world col_listening empty_mem)
           (mem_after "todos" (Some 5%nat) merged_t1_t2) merged_t1_t2).
  - reflexivity.
  - vm_compute. reflexivity.
  - exists delta_t2. split; [left|discriminate].
  - intros d Hd.
    repeat (apply elem_of_cons in Hd as [->|Hd]; [reflexivity|]).
    by apply elem_of_nil in Hd.
Defined.

(** C6 as stated fails: a message with one delta, whose stamp is the empty
    string, is processed to the end and the clock is never received. *)
Lemma unstamped_delta_skips_recvClock :
  List.filter is_recv_call
    (log (handle (SSync "todos" (Some 5%nat) [delta_unstamped]) col_cached).1) = []
  ∧ (handle (SSync "todos" (Some 5%nat) [delta_unstamped]) col_cached).2 = Ok tt
  ∧ clock (handle (SSync "todos" (Some 5%nat) [delta_unstamped]) col_cached).1
    = clock (world col_cached empty_mem).
Proof. repeat split; vm_compute; reflexivity. Qed.

Example recvClock_ex :
  List.filter is_recv_call
    (log (handle (SSync "todos" (Some 5%nat) [delta_t2; delta_t1]) col_listening).1)
  = [EvRecvClock remote_clock]
  ∧ clock (handle (SSync "todos" (Some 5%nat) [delta_t2; delta_t1]) col_listening).1
    = {| node := "n0"; timestamp := 2000; counter := 6 |}.
Proof. split; vm_compute; reflexivity. Qed.

(** A stamp, a receive, a stamp. *)
Lemma stamps_strictly_increase_witness :
  ∃ cj, "2000:7:n0" = test_pack cj
    ∧ (∀ si, run_clock test_hlc mem_clock [OpGetStamp; OpRecvClock remote_clock; OpGetStamp]
               (world newCollection empty_mem) !! 0%nat = Some (Issued (Ok si)) →
             ∃ ci, si = test_pack ci ∧ StdHLC.lt ci cj)
    ∧ (∀ remote, run_clock test_hlc mem_clock
                   [OpGetStamp; OpRecvClock remote_clock; OpGetStamp]
                   (world newCollection empty_mem) !! 0%nat = Some (Received remote) →
                 StdHLC.lt remote cj).
Proof.
  apply (stamps_strictly_increase test_pack test_unpack mem_clock
           [OpGetStamp; OpRecvClock remote_clock; OpGetStamp]
           (world newCollection empty_mem) 0 2 "2000:7:n0").
  - lia.
  - vm_compute. reflexivity.
Defined.

Example run_clock_ex :
  run_clock test_hlc mem_clock [OpGetStamp; OpRecvClock remote_clock; OpGetStamp]
    (world newCollection empty_mem)
  = [Issued (Ok "1000:0:n0"); Received remote_clock; Issued (Ok "2000:7:n0")].
Proof. vm_compute. reflexivity. Qed.

(** One collection-wide listener, two deltas. *)
Lemma listeners_notified_once_witness :
  ∃ (calls : list (Event Write (option nat) (option nat)))
    (changes : list (string * option nat)),
    log (handle (SSync "todos" (Some 5%nat) [delta_t1; delta_t2]) col_listening).1
    = log (world col_listening empty_mem) ++ calls
    ∧ List.filter is_listener_call calls
      = map (λ listener, EvListener listener changes) (listeners col_listening)
    ∧ NoDup (map fst changes)
    ∧ (∀ id, id ∈ map fst changes
             ↔ id ∈ map nd_node [delta_t1; delta_t2] ∧ id ≠ "__proto__")
    ∧ (∀ id v, (id, v) ∈ changes → v = value lww (js_get merged_t1_t2 id)).
Proof.
  apply (listeners_notified_once lww todos_persistence test_hlc mem_clock
           "todos" (Some 5%nat) [delta_t1; delta_t2] col_listening
           (world col_listening empty_mem)
           (mem_after "todos" (Some 5%nat) merged_t1_t2) merged_t1_t2).
  - reflexivity.
  - vm_compute. reflexivity.
Defined.

(** C8: the code at the failing input.  A message with deltas on
    ["__proto__"] and on ["t1"]: the listener is called once, and its changes
    hold no pair for ["__proto__"]. *)
Lemma proto_node_missing_from_changes :
  map nd_node [delta_proto; delta_t1] = ["__proto__"; "t1"]
  ∧ List.filter is_listener_call
      (log (handle (SSync "todos" (Some 5%nat) [delta_proto; delta_t1]) col_listening).1)
    = [EvListener 3%nat [("t1", Some 4%nat)]].
Proof. split; vm_compute; reflexivity. Qed.

Example listeners_ex :
  List.filter is_listener_call
    (log (handle (SSync "todos" (Some 5%nat) [delta_t1; delta_t2]) col_listening).1)
  = [EvListener 3%nat [("t1", Some 4%nat); ("t2", Some 8%nat)]].
Proof. vm_compute. reflexivity. Qed.

(** A clock store that is full. *)
Lemma clock_persist_failure_witness :
  ((getStamp test_hlc full_clock (world newCollection empty_mem)).2
   = Throw (Rejected "QuotaExceededError")
   ∧ clock (getStamp test_hlc full_clock (world newCollection empty_mem)).1
     = {| node := "n0"; timestamp := 1000; counter := 0 |})
  ∧ ((recvClock test_hlc full_clock remote_clock (world newCollection empty_mem)).2
     = Throw (Rejected "QuotaExceededError")
     ∧ clock (recvClock test_hlc full_clock remote_clock (world newCollection empty_mem)).1
       = {| node := "n0"; timestamp := 2000; counter := 6 |})
  ∧ ((setClock full_clock remote_clock (world newCollection empty_mem)).2
     = Throw (Rejected "QuotaExceededError")
     ∧ clock (setClock full_clock remote_clock (world newCollection empty_mem)).1
       = remote_clock).
Proof.
  destruct (clock_persist_failure test_hlc full_clock (world newCollection empty_mem)
              (Rejected "QuotaExceededError")) as (Hget & Hrecv & Hset).
  split; [|split].
  - apply Hget. reflexivity.
  - apply (Hrecv remote_clock). reflexivity.
  - apply (Hset remote_clock). reflexivity.
Defined.

Example ack_ex :
  handleMessage lww todos_persistence test_hlc (recvClock test_hlc mem_clock)
    (SAck "todos" "2000:0:n0") (world col_listening mem_pending_t1)
  = (set_log [EvDeleteDeltas "todos" "2000:0:n0"]
       (set_store {| mem_pending := {[ "todos" := [] ]};
                     mem_cursor := {[ "notes" := Some 3%nat ]};
                     mem_data := ∅ |}
          (world col_listening mem_pending_t1)),
     Ok tt).
Proof. vm_compute. reflexivity. Qed.

(** A batch whose first message fails: the ack after it is processed all
    the same, and the batch rejects with the first error. *)
Example batch_ex :
  log (handleMessages lww todos_persistence test_hlc (recvClock test_hlc mem_clock)
         [SSync "notes" (Some 5%nat) []; SAck "todos" "2000:0:n0"]
         (world col_listening mem_pending_t1)).1
  = [EvApplyDeltas "notes" [] (Some 5%nat); EvDeleteDeltas "todos" "2000:0:n0"]
  ∧ (handleMessages lww todos_persistence test_hlc (recvClock test_hlc mem_clock)
       [SSync "notes" (Some 5%nat) []; SAck "todos" "2000:0:n0"]
       (world col_listening mem_pending_t1)).2
    = Throw (TypeError "Cannot read properties of undefined (reading 'listeners')").
Proof. split; vm_compute; reflexivity. Qed.

(** * Further properties of the code *)

Section MoreProperties.
Context {Delta Data Value Cursor : Type}.
Context {data_js : JsValue Data} {cursor_js : JsValue Cursor}.
Context {P CP : Type}.

Local Abbreviation W := (@World Delta Data Value Cursor P CP).
Local Abbreviation Ev := (Event Delta Cursor Value).

(** ** getMessages: rejection, order, reconnect *)

Lemma getMessage_throws_iff (persistence : DeltaPersistence Delta Data Cursor P)
    (reconnected : bool) (p : P) (id : string) :
  (∃ e, getMessage persistence reconnected p id = Throw e)
  ↔ (∃ e, deltas persistence id p = Throw e)
    ∨ (∃ e, getServerCursor persistence id p = Throw e).
Proof.
  unfold getMessage.
  destruct (deltas persistence id p) as [ds|e1]; simpl.
  - destruct (getServerCursor persistence id p) as [c|e2]; simpl.
    + destruct (negb (length ds =? 0)%nat || negb (truthy c) || reconnected);
        split; [intros [e He]; done|intros [[e He]|[e He]]; done
               |intros [e He]; done|intros [[e He]|[e He]]; done].
    + split; [intros _; right; by exists e2|intros _; by exists e2].
  - split; [intros _; left; by exists e1|intros _; by exists e1].
Qed.

Lemma result_all_throws_iff {A B} (f : A → Result B) (xs : list A) :
  (∃ e, result_all f xs = Throw e) ↔ ∃ x, x ∈ xs ∧ ∃ e, f x = Throw e.
Proof.
  induction xs as [|x xs IH]; simpl.
  - split; [intros [e He]; done|intros [x [Hx _]]; by apply elem_of_nil in Hx].
  - destruct (f x) as [y|e] eqn:Hfx; simpl.
    + destruct (result_all f xs) as [ys|e'] eqn:Hall; simpl.
      * split; [intros [e He]; done|].
        intros [x' [Hx' [e He]]]. apply elem_of_cons in Hx' as [->|Hx'].
        -- congruence.
        -- destruct (proj2 IH) as [e0 He0]; [|done].
           exists x'. split; [done|by exists e].
      * split; [|intros _; by exists e'].
        intros _. destruct (proj1 IH) as [x' [Hx' He]]; [by exists e'|].
        exists x'. split; [by right|done].
    + split; [|intros _; by exists e].
      intros _. exists x. split; [left|by exists e].
Qed.

(** X1.  [getMessages] rejects exactly when one of the reads of the
    persistence (the pending deltas or the server cursor of a known
    collection) rejects: a failed read is never turned into a shorter list of
    messages. *)
Theorem getMessages_rejects_iff (persistence : DeltaPersistence Delta Data Cursor P)
    (reconnected : bool) (p : P) :
  (∃ e, getMessages persistence reconnected p = Throw e)
  ↔ ∃ id, id ∈ collections persistence
          ∧ ((∃ e, deltas persistence id p = Throw e)
             ∨ (∃ e, getServerCursor persistence id p = Throw e)).
Proof.
  unfold getMessages.
  assert ((∃ e, (let? a := result_all (getMessage persistence reconnected p)
                               (collections persistence) in
                 Ok (filter_Boolean a)) = Throw e)
          ↔ ∃ e, result_all (getMessage persistence reconnected p)
                   (collections persistence) = Throw e) as ->.
  { destruct (result_all _ _) as [a|e]; simpl.
    - split; intros [e He]; done.
    - split; intros _; by exists e. }
  rewrite result_all_throws_iff. split.
  - intros [id [Hid He]]. exists id. split; [done|].
    by apply (getMessage_throws_iff persistence reconnected).
  - intros [id [Hid He]]. exists id. split; [done|].
    by apply getMessage_throws_iff.
Qed.

Lemma getMessage_collection (persistence : DeltaPersistence Delta Data Cursor P)
    (reconnected : bool) (p : P) (id : string) (m : ClientMessage Delta Cursor) :
  getMessage persistence reconnected p id = Ok (Some m) → cm_collection m = id.
Proof.
  unfold getMessage.
  destruct (deltas persistence id p) as [ds|]; simpl; [|done].
  destruct (getServerCursor persistence id p) as [c|]; simpl; [|done].
  destruct (negb (length ds =? 0)%nat || negb (truthy c) || reconnected); [|done].
  intros Heq. by simplify_eq.
Qed.

(** X2.  The messages [getMessages] answers with come in the order of
    [persistence.collections]: their collection names are a sublist of it, so
    there is at most one message per listed collection and none for a
    collection that is not listed. *)
Theorem getMessages_in_collection_order
    (persistence : DeltaPersistence Delta Data Cursor P) (reconnected : bool)
    (p : P) (msgs : list (ClientMessage Delta Cursor)) :
  getMessages persistence reconnected p = Ok msgs →
  sublist (map cm_collection msgs) (collections persistence).
Proof.
  unfold getMessages. revert msgs.
  induction (collections persistence) as [|id ids IH]; intros msgs Hget; simpl in Hget.
  - simplify_eq. simpl. constructor.
  - destruct (getMessage persistence reconnected p id) as [o|] eqn:Hm; simpl in Hget; [|done].
    destruct (result_all (getMessage persistence reconnected p) ids) as [a|] eqn:Ha;
      simpl in Hget; [|done].
    injection Hget as <-.
    specialize (IH (filter_Boolean a) eq_refl).
    destruct o as [m|].
    + change (sublist (cm_collection m :: map cm_collection (filter_Boolean a)) (id :: ids)).
      rewrite (getMessage_collection _ _ _ _ _ Hm). by apply sublist_skip.
    + change (sublist (map cm_collection (filter_Boolean a)) (id :: ids)).
      by apply sublist_cons.
Qed.

Lemma getMessage_reconnect (persistence : DeltaPersistence Delta Data Cursor P)
    (p : P) (id : string) (o : option (ClientMessage Delta Cursor)) :
  getMessage persistence false p id = Ok o →
  ∃ m, getMessage persistence true p id = Ok (Some m)
       ∧ cm_collection m = id
       ∧ (o = None ∨ o = Some m).
Proof.
  unfold getMessage.
  destruct (deltas persistence id p) as [ds|]; simpl; [|done].
  destruct (getServerCursor persistence id p) as [c|]; simpl; [|done].
  rewrite orb_true_r. intros Ho.
  exists (CSync id c (map strip_stamp ds)). split; [done|]. split; [done|].
  destruct (negb (length ds =? 0)%nat || negb (truthy c) || false); simplify_eq; auto.
Qed.

(** X3.  Reconnecting only adds messages.  When a pass without reconnect
    answers with a list of messages, the pass with [reconnected = true] over
    the same store answers too, with exactly one message per entry of
    [persistence.collections], in that order, and the messages of the first
    pass are a sublist of it. *)
Theorem getMessages_reconnect_adds (persistence : DeltaPersistence Delta Data Cursor P)
    (p : P) (msgs : list (ClientMessage Delta Cursor)) :
  getMessages persistence false p = Ok msgs →
  ∃ all, getMessages persistence true p = Ok all
         ∧ map cm_collection all = collections persistence
         ∧ sublist msgs all.
Proof.
  unfold getMessages. revert msgs.
  induction (collections persistence) as [|id ids IH]; intros msgs Hget; simpl in Hget |- *.
  - injection Hget as <-. exists []. repeat split. constructor.
  - destruct (getMessage persistence false p id) as [o|] eqn:Hm; simpl in Hget; [|done].
    destruct (result_all (getMessage persistence false p) ids) as [a|] eqn:Ha;
      simpl in Hget; [|done].
    injection Hget as <-.
    destruct (getMessage_reconnect _ _ _ _ Hm) as (m & Hm' & Hcol & Ho).
    destruct (IH (filter_Boolean a) eq_refl) as (rest & Hrest & Hcols & Hsub).
    rewrite Hm'. simpl.
    destruct (result_all (getMessage persistence true p) ids) as [a'|] eqn:Ha';
      simpl in Hrest |- *; [|done].
    injection Hrest as <-.
    exists (m :: filter_Boolean a'). split; [done|]. split.
    + simpl. by rewrite Hcol, Hcols.
    + destruct Ho as [->| ->].
      * change (sublist (filter_Boolean a) (m :: filter_Boolean a')). by apply sublist_cons.
      * change (sublist (m :: filter_Boolean a) (m :: filter_Boolean a')).
        by apply sublist_skip.
Qed.

(** ** handleMessages: a merge that fails *)

(** X4.  When [persistence.applyDeltas] rejects, processing of the sync
    message stops there with the same error: the [state] object, the clock
    and the clock store are as before, and the only call made is the one to
    [applyDeltas]; no listener runs, nothing is broadcast.  This holds
    whether or not the collection is tracked. *)
Theorem sync_merge_failure (crdt : CRDTImpl Delta Data Value)
    (persistence : DeltaPersistence Delta Data Cursor P) (hlc : HLCImpl)
    (rc : HLC → M unit) (collection : string) (serverCursor : Cursor)
    (ds : list (NodeDelta Delta)) (w : W) (p' : P) (e : Error) :
  applyDeltas persistence collection (map (with_stamp crdt) ds) serverCursor
    (deltas_apply crdt) (store w) = (p', Throw e) →
  handleMessage crdt persistence hlc rc (SSync collection serverCursor ds) w
  = (set_log (log w ++ [EvApplyDeltas collection (map (with_stamp crdt) ds) serverCursor])
       (set_store p' w),
     Throw e).
Proof.
  intros Happly. unfold handleMessage, bind at 1.
  unfold call_applyDeltas, bind at 1. simpl. by rewrite Happly.
Qed.

(** ** handleMessages: broadcast, frame and order of the calls *)

Lemma object_keys_length_zero (ks : list string) :
  (∀ k, k ∈ ks → is_prototype_member k = false) →
  (length (object_keys ks) =? 0)%nat = match ks with [] => true | _ => false end.
Proof.
  intros Hks. destruct ks as [|k ks]; [done|].
  pose proof (object_keys_nonempty (k :: ks)) as Hne.
  destruct (object_keys (k :: ks)); [by destruct Hne|done].
Qed.

(** X5.  For a sync message on a tracked collection whose merge succeeds
    and none of whose node ids names a member of [Object.prototype], the
    cross-context channel is used at most once: not at all when the message
    has no delta, and otherwise exactly once, with the collection and the
    list of changed node ids, which names every node of the deltas once
    however many deltas touch it. *)
Theorem sync_broadcast_once (crdt : CRDTImpl Delta Data Value)
    (persistence : DeltaPersistence Delta Data Cursor P) (hlc : HLCImpl)
    (clockPersist : ClockPersist CP) (collection : string) (serverCursor : Cursor)
    (ds : list (NodeDelta Delta)) (col : CollectionState Data) (w : W)
    (p' : P) (data : gmap string Data) :
  state w !! collection = Some col →
  applyDeltas persistence collection (map (with_stamp crdt) ds) serverCursor
    (deltas_apply crdt) (store w) = (p', Ok data) →
  (∀ d, d ∈ ds → is_prototype_member (nd_node d) = false) →
  ∃ (calls : list Ev) (nodes : list string),
    log (handleMessage crdt persistence hlc (recvClock hlc clockPersist)
           (SSync collection serverCursor ds) w).1 = log w ++ calls
    ∧ List.filter is_broadcast_call calls
      = match ds with
        | [] => []
        | _ => [EvSendCrossTabChanges {| pc_col := collection; pc_nodes := nodes |}]
        end
    ∧ NoDup nodes
    ∧ (∀ id, id ∈ nodes ↔ id ∈ map nd_node ds).
Proof.
  intros Hcol Happly Hds.
  destruct (handleMessage_sync_client crdt persistence hlc clockPersist
              collection serverCursor ds col w p' data Hcol Happly)
    as (_ & _ & Hlog).
  destruct (ran_ids_all (itemListeners col) (object_keys (map nd_node ds))
              (changed_ids_ordinary ds Hds)) as [Hran Hcompl].
  eexists _, (object_keys (map nd_node ds)).
  split; [exact Hlog|]. split; [|split].
  - rewrite List.filter_app, filter_clock_part, app_nil_r by done.
    unfold sync_events. simpl. rewrite !List.filter_app.
    rewrite filter_map_none by done.
    rewrite (filter_item_events _ false) by done.
    rewrite Hcompl, object_keys_length_zero.
    + by destruct ds.
    + intros k Hk. apply elem_of_map in Hk as [d [-> Hd]]. by apply Hds.
  - apply NoDup_object_keys.
  - intros id. rewrite elem_of_object_keys. split; [tauto|]. intros Hid.
    split; [done|]. apply elem_of_map in Hid as [d [-> Hd]].
    by apply is_prototype_member_false, Hds.
Qed.

(** X6.  What a sync message leaves alone.  For a tracked collection and a
    merge that succeeds: the state of every other collection is untouched;
    in the collection itself the registered listeners are untouched, the
    cache entries of nodes the message has no delta for are untouched, and
    for every node id that does not name a member of [Object.prototype] the
    cache has an entry after the message exactly when it had one before. *)
Theorem sync_frame (crdt : CRDTImpl Delta Data Value)
    (persistence : DeltaPersistence Delta Data Cursor P) (hlc : HLCImpl)
    (clockPersist : ClockPersist CP) (collection : string) (serverCursor : Cursor)
    (ds : list (NodeDelta Delta)) (col : CollectionState Data) (w : W)
    (p' : P) (data : gmap string Data) :
  state w !! collection = Some col →
  applyDeltas persistence collection (map (with_stamp crdt) ds) serverCursor
    (deltas_apply crdt) (store w) = (p', Ok data) →
  (∀ other, other ≠ collection →
     state (handleMessage crdt persistence hlc (recvClock hlc clockPersist)
              (SSync collection serverCursor ds) w).1 !! other
     = state w !! other)
  ∧ ∃ col',
      state (handleMessage crdt persistence hlc (recvClock hlc clockPersist)
               (SSync collection serverCursor ds) w).1 !! collection = Some col'
      ∧ listeners col' = listeners col
      ∧ itemListeners col' = itemListeners col
      ∧ (∀ N, N ∉ map nd_node ds → cache col' !! N = cache col !! N)
      ∧ (∀ N, is_prototype_member N = false →
              (is_Some (cache col' !! N) ↔ is_Some (cache col !! N))).
Proof.
  intros Hcol Happly.
  destruct (handleMessage_sync_client crdt persistence hlc clockPersist
              collection serverCursor ds col w p' data Hcol Happly)
    as (_ & Hstate & _).
  rewrite Hstate. split.
  - intros other Hne. by apply lookup_insert_ne.
  - eexists. split; [apply lookup_insert_eq|]. split; [done|]. split; [done|]. split.
    + intros N HN. simpl. rewrite cache_after_lookup.
      rewrite bool_decide_eq_false_2; [done|]. intros [HN' _].
      apply ran_ids_subset, elem_of_object_keys in HN' as [HN' _]. done.
    + intros N HN. simpl. rewrite cache_after_lookup.
      destruct (bool_decide _ && slot_truthy (obj_get (cache col) N)) eqn:E; [|done].
      apply andb_true_iff in E as [_ E]. unfold obj_get in E.
      destruct (cache col !! N) as [v|]; [split; eauto|].
      rewrite HN in E. done.
Qed.

Lemma Forall_item_events (crdt : CRDTImpl Delta Data Value)
    (col : CollectionState Data) (data : gmap string Data) (ids : list string) :
  Forall (λ e : Ev, is_item_listener_call e = true) (item_events crdt col data ids).
Proof.
  unfold item_events. induction ids as [|id ids IH]; simpl; [constructor|].
  apply Forall_app. split; [|done].
  destruct (itemListeners col !! id) as [fns|]; [|constructor].
  induction fns; simpl; by constructor.
Qed.

(** X7.  The order of the calls made for a sync message on a tracked
    collection whose merge succeeds: first the call to
    [persistence.applyDeltas], with the deltas of the message in their
    order, each with the stamp the CRDT derives from it, and the cursor of
    the message; then the collection-wide listeners; then the per-node
    listeners; then the broadcast; the clock comes last. *)
Theorem sync_call_order (crdt : CRDTImpl Delta Data Value)
    (persistence : DeltaPersistence Delta Data Cursor P) (hlc : HLCImpl)
    (clockPersist : ClockPersist CP) (collection : string) (serverCursor : Cursor)
    (ds : list (NodeDelta Delta)) (col : CollectionState Data) (w : W)
    (p' : P) (data : gmap string Data) :
  state w !! collection = Some col →
  applyDeltas persistence collection (map (with_stamp crdt) ds) serverCursor
    (deltas_apply crdt) (store w) = (p', Ok data) →
  ∃ ls ils bs cs : list Ev,
    log (handleMessage crdt persistence hlc (recvClock hlc clockPersist)
           (SSync collection serverCursor ds) w).1
    = log w
      ++ EvApplyDeltas collection
           (map (λ d, {| pd_node := nd_node d; pd_delta := nd_delta d;
                         pd_stamp := deltas_stamp crdt (nd_delta d) |}) ds)
           serverCursor
         :: ls ++ ils ++ bs ++ cs
    ∧ Forall (λ e, is_listener_call e = true) ls
    ∧ Forall (λ e, is_item_listener_call e = true) ils
    ∧ Forall (λ e, is_broadcast_call e = true) bs
    ∧ Forall (λ e, is_clock_call e = true) cs.
Proof.
  intros Hcol Happly.
  destruct (handleMessage_sync_client crdt persistence hlc clockPersist
              collection serverCursor ds col w p' data Hcol Happly)
    as (_ & _ & Hlog).
  exists (map (λ listener, EvListener listener
                 (changes_of crdt data (object_keys (map nd_node ds)))) (listeners col)),
         (item_events crdt col data
            (ran_ids (itemListeners col) (object_keys (map nd_node ds)))),
         (if loop_completes (itemListeners col) (object_keys (map nd_node ds))
             && negb (length (object_keys (map nd_node ds)) =? 0)%nat
          then [EvSendCrossTabChanges
                  {| pc_col := collection; pc_nodes := object_keys (map nd_node ds) |}]
          else []),
         (if loop_completes (itemListeners col) (object_keys (map nd_node ds))
          then clock_events crdt hlc ds (clock w) (wall w (tick w))
          else []).
  split; [|split; [|split; [|split]]].
  - rewrite Hlog. unfold sync_events. simpl. by rewrite <- !app_assoc.
  - induction (listeners col); simpl; by constructor.
  - apply Forall_item_events.
  - destruct (_ && _); repeat constructor.
  - destruct (loop_completes _ _); [|constructor].
    unfold clock_events. destruct (max_stamp crdt ds) as [m|]; [|constructor].
    destruct (string_truthy m); repeat constructor.
Qed.

(** ** handleMessages: the stamp handed to the clock *)

(** X8.  The loop of lines 135-141 computes the greatest stamp of the
    message under [>] on strings, empty stamps included: it ends on [null]
    exactly when the message has no delta, and otherwise on a stamp of the
    message that no stamp of the message exceeds. *)
Theorem max_stamp_greatest (crdt : CRDTImpl Delta Data Value)
    (ds : list (NodeDelta Delta)) :
  match max_stamp crdt ds with
  | None => ds = []
  | Some m =>
      m ∈ map (λ d, deltas_stamp crdt (nd_delta d)) ds
      ∧ ∀ s, s ∈ map (λ d, deltas_stamp crdt (nd_delta d)) ds → string_gt s m = false
  end.
Proof. apply max_stamp_spec. Qed.

(** X9.  The stamp handed to the clock does not depend on the order of the
    deltas in the message. *)
Theorem max_stamp_order_independent (crdt : CRDTImpl Delta Data Value)
    (ds ds' : list (NodeDelta Delta)) :
  ds ≡ₚ ds' → max_stamp crdt ds = max_stamp crdt ds'.
Proof.
  intros Hperm.
  assert (∀ s, s ∈ map (λ d, deltas_stamp crdt (nd_delta d)) ds
               ↔ s ∈ map (λ d, deltas_stamp crdt (nd_delta d)) ds') as Hsame.
  { intros s. rewrite !elem_of_map. split; intros [d [-> Hd]]; exists d.
    - by rewrite <- Hperm.
    - by rewrite Hperm. }
  pose proof (max_stamp_spec crdt ds) as H1.
  pose proof (max_stamp_spec crdt ds') as H2.
  destruct (max_stamp crdt ds) as [m|], (max_stamp crdt ds') as [m'|].
  - destruct H1 as [Hin1 Hmax1], H2 as [Hin2 Hmax2]. f_equal.
    apply string_le_antisym.
    + apply Hmax2. by apply Hsame.
    + apply Hmax1. by apply Hsame.
  - subst ds'. apply Permutation_nil_r in Hperm. subst ds.
    destruct H1 as [Hin _]. by apply elem_of_nil in Hin.
  - subst ds. apply Permutation_nil_l in Hperm. subst ds'.
    destruct H2 as [Hin _]. by apply elem_of_nil in Hin.
  - done.
Qed.

(** X10.  A sync message none of whose deltas has a non-empty stamp (a
    message without deltas among them) never reaches the clock: on a tracked
    collection and with a merge that succeeds, no clock receive and no write
    to the clock store is made, and the clock, the clock store and the wall
    clock reading are as before. *)
Theorem sync_without_stamp_keeps_clock (crdt : CRDTImpl Delta Data Value)
    (persistence : DeltaPersistence Delta Data Cursor P) (hlc : HLCImpl)
    (clockPersist : ClockPersist CP) (collection : string) (serverCursor : Cursor)
    (ds : list (NodeDelta Delta)) (col : CollectionState Data) (w : W)
    (p' : P) (data : gmap string Data) :
  state w !! collection = Some col →
  applyDeltas persistence collection (map (with_stamp crdt) ds) serverCursor
    (deltas_apply crdt) (store w) = (p', Ok data) →
  (∀ d, d ∈ ds → deltas_stamp crdt (nd_delta d) = "") →
  let w' := (handleMessage crdt persistence hlc (recvClock hlc clockPersist)
               (SSync collection serverCursor ds) w).1 in
  (∃ calls : list Ev, log w' = log w ++ calls ∧ List.filter is_clock_call calls = [])
  ∧ clock w' = clock w
  ∧ clockStore w' = clockStore w
  ∧ tick w' = tick w.
Proof.
  intros Hcol Happly Hempty. cbv zeta.
  assert (match max_stamp crdt ds with
          | Some m => string_truthy m = false
          | None => True
          end) as Hfalsy.
  { pose proof (max_stamp_spec crdt ds) as Hmax.
    destruct (max_stamp crdt ds) as [m|]; [|done].
    destruct Hmax as [Hin _]. apply elem_of_map in Hin as [d [-> Hd]].
    by rewrite (Hempty d Hd). }
  destruct (handleMessage_sync_client crdt persistence hlc clockPersist
              collection serverCursor ds col w p' data Hcol Happly)
    as (_ & _ & Hlog).
  split.
  - eexists. split; [exact Hlog|].
    rewrite List.filter_app. unfold clock_events.
    assert (List.filter is_clock_call
              (if loop_completes (itemListeners col) (object_keys (map nd_node ds))
               then match max_stamp crdt ds with
                    | Some m =>
                        if string_truthy m
                        then [EvRecvClock (Delta:=Delta) (Cursor:=Cursor) (Value:=Value)
                                (unpack hlc m);
                              EvClockPersistSet
                                (recv hlc (clock w) (unpack hlc m) (wall w (tick w)))]
                        else []
                    | None => []
                    end
               else []) = []) as ->.
    { destruct (loop_completes _ _); [|done].
      destruct (max_stamp crdt ds) as [m|]; [|done]. by rewrite Hfalsy. }
    rewrite app_nil_r. unfold sync_events. simpl. rewrite !List.filter_app.
    rewrite filter_map_none by done.
    rewrite (filter_item_events _ false) by done.
    by destruct (_ && _).
  - rewrite (handleMessage_sync _ _ _ _ _ _ _ col w p' data) by done. cbv zeta.
    destruct (loop_completes _ _); [|done].
    destruct (max_stamp crdt ds) as [m|]; [|done]. by rewrite Hfalsy.
Qed.

(** ** handleMessages: batches *)

Lemma result_bind_assoc {A} (r1 r2 r3 : Result A) :
  (let? _ := (let? _ := r1 in r2) in r3) = (let? _ := r1 in let? _ := r2 in r3).
Proof. by destruct r1. Qed.

(** A batch is processed message by message: handling [xs ++ ys] is
    handling [xs], then [ys] from the state [xs] left behind, whether or not
    [xs] failed; the batch rejects with the first error met. *)
Lemma handleMessages_app (crdt : CRDTImpl Delta Data Value)
    (persistence : DeltaPersistence Delta Data Cursor P) (hlc : HLCImpl)
    (rc : HLC → M unit) (xs ys : list (ServerMessage Delta Cursor)) (w : W) :
  handleMessages crdt persistence hlc rc (xs ++ ys) w
  = let (w1, r1) := handleMessages crdt persistence hlc rc xs w in
    let (w2, r2) := handleMessages crdt persistence hlc rc ys w1 in
    (w2, let? _ := r1 in r2).
Proof.
  revert w. induction xs as [|x xs IH]; intros w; simpl.
  - by destruct (handleMessages crdt persistence hlc rc ys w).
  - destruct (handleMessage crdt persistence hlc rc x w) as [w0 r0].
    rewrite IH.
    destruct (handleMessages crdt persistence hlc rc xs w0) as [w1 r1].
    destruct (handleMessages crdt persistence hlc rc ys w1) as [w2 r2].
    by rewrite result_bind_assoc.
Qed.

(** X11.  A batch of ack messages asks the persistence for one deletion per
    ack, in the order of the batch, and does nothing else: the [state]
    object, the clock, the clock store and the wall clock are as before and
    the log shows only those calls. *)
Theorem handleMessages_acks (crdt : CRDTImpl Delta Data Value)
    (persistence : DeltaPersistence Delta Data Cursor P) (hlc : HLCImpl)
    (rc : HLC → M unit) (acks : list (string * string)) (w : W) :
  let w' := (handleMessages crdt persistence hlc rc
               (map (λ a, SAck a.1 a.2) acks) w).1 in
  log w' = log w ++ map (λ a, EvDeleteDeltas a.1 a.2) acks
  ∧ state w' = state w
  ∧ clock w' = clock w
  ∧ clockStore w' = clockStore w
  ∧ tick w' = tick w.
Proof.
  revert w. induction acks as [|[c s] acks IH]; intros w.
  - simpl. by rewrite app_nil_r.
  - cbv zeta. change (map (λ a, SAck a.1 a.2) ((c, s) :: acks))
      with (SAck (Delta:=Delta) (Cursor:=Cursor) c s :: map (λ a, SAck a.1 a.2) acks).
    rewrite handleMessages_cons, handleMessage_ack.
    destruct (IH (set_store (deleteDeltas persistence c s (store w)).1
                    (set_log (log w ++ [EvDeleteDeltas c s]) w)))
      as (Hlog & Hstate & Hclock & Hcs & Htick).
    cbn [fst] in *. rewrite Hlog, Hstate, Hclock, Hcs, Htick. simpl.
    by rewrite <- app_assoc.
Qed.

(** ** The clock closures: one write per change *)

(** X12.  Each of [getStamp], [recvClock] and [setClock] writes the clock
    store exactly once, with the very clock it leaves in the [clock]
    variable, and touches nothing else of the client; [getStamp] and
    [recvClock] read the wall clock once, [setClock] does not read it.
    [getStamp] then returns the packed form of that clock, unless the write
    threw. *)
Theorem clock_written_once (hlc : HLCImpl) (clockPersist : ClockPersist CP)
    (newClock : HLC) (w : W) :
  (let r := getStamp hlc clockPersist w in
   log r.1 = log w ++ [EvClockPersistSet (clock r.1)]
   ∧ tick r.1 = S (tick w) ∧ state r.1 = state w ∧ store r.1 = store w
   ∧ (r.2 = Ok (pack hlc (clock r.1)) ∨ ∃ e, r.2 = Throw e))
  ∧ (let r := recvClock hlc clockPersist newClock w in
     log r.1 = log w ++ [EvClockPersistSet (clock r.1)]
     ∧ tick r.1 = S (tick w) ∧ state r.1 = state w ∧ store r.1 = store w)
  ∧ (let r := setClock clockPersist newClock w in
     log r.1 = log w ++ [EvClockPersistSet (clock r.1)]
     ∧ tick r.1 = tick w ∧ state r.1 = state w ∧ store r.1 = store w
     ∧ clock r.1 = newClock).
Proof.
  split; [|split]; cbv zeta.
  - rewrite getStamp_run. simpl. repeat split.
    destruct (cp_set clockPersist _ _).2 as [[]|e]; simpl; [by left|right; by exists e].
  - rewrite recvClock_run. simpl. done.
  - rewrite setClock_run. simpl. done.
Qed.

(** The stamp the next [getStamp()] issues after a [setClock] is computed
    from the clock given to [setClock] and the wall time alone. *)
Lemma getStamp_after_setClock (hlc : HLCImpl) (clockPersist : ClockPersist CP)
    (newClock : HLC) (w : W) :
  let w1 := (setClock clockPersist newClock w).1 in
  let r := getStamp hlc clockPersist w1 in
  clock r.1 = inc hlc newClock (wall w (tick w))
  ∧ (r.2 = Ok (pack hlc (inc hlc newClock (wall w (tick w)))) ∨ ∃ e, r.2 = Throw e).
Proof.
  cbv zeta. rewrite setClock_run, getStamp_run. simpl. split; [done|].
  destruct (cp_set clockPersist _ _).2 as [[]|e]; simpl; [by left|right; by exists e].
Qed.

(** X13.  [setClock] is an unchecked override, and stamps are not unique
    across it: when the clock is set back to the value it had before a
    [getStamp()] and the wall clock has not moved, the next [getStamp()]
    returns the same stamp again. *)
Theorem setClock_back_repeats_stamp (hlc : HLCImpl) (clockPersist : ClockPersist CP)
    (w : W) (s1 s2 : string) :
  wall w (S (tick w)) = wall w (tick w) →
  (getStamp hlc clockPersist w).2 = Ok s1 →
  (getStamp hlc clockPersist
     (setClock clockPersist (clock w) (getStamp hlc clockPersist w).1).1).2 = Ok s2 →
  s1 = s2.
Proof.
  intros Hwall H1 H2.
  destruct (getStamp_after_setClock hlc clockPersist (clock w)
              (getStamp hlc clockPersist w).1) as [_ [Hok|[e He]]];
    cbv zeta in *; [|congruence].
  rewrite Hok in H2. injection H2 as <-.
  rewrite getStamp_run in H1 |- *. cbn [fst snd] in *. simpl.
  rewrite Hwall.
  destruct (cp_set clockPersist _ _).2 as [[]|e]; simpl in H1; congruence.
Qed.

(** ** A client fresh from createClient *)

Lemma item_events_newCollection (crdt : CRDTImpl Delta Data Value)
    (data : gmap string Data) (ids : list string) :
  item_events (Cursor:=Cursor) crdt newCollection data ids = [].
Proof.
  unfold item_events. induction ids as [|id ids IH]; simpl; [done|].
  rewrite lookup_empty. exact IH.
Qed.

Lemma cache_after_empty (data : gmap string Data) (ids : list string) :
  (∀ id, id ∈ ids → is_prototype_member id = false) → cache_after data ids ∅ = ∅.
Proof.
  intros Hids. apply map_eq. intros N. rewrite cache_after_lookup, lookup_empty.
  destruct (bool_decide (N ∈ ids ∧ N ≠ "__proto__")) eqn:E; [|done].
  apply bool_decide_eq_true in E as [HN _]. unfold obj_get.
  rewrite lookup_empty, (Hids N HN). done.
Qed.

(** X14.  On a client fresh from [createClient] (line 160: one new
    collection state per collection of the persistence, none of them named
    ["__proto__"]), a sync message whose merge succeeds and none of whose
    node ids names a member of [Object.prototype] either names a collection
    of the persistence, and then no listener is called and the [state]
    object, empty caches included, is left as it was; or names another
    collection (not one named like a member of [Object.prototype]), and then
    processing throws a [TypeError]. *)
Theorem fresh_client_sync (crdt : CRDTImpl Delta Data Value)
    (persistence : DeltaPersistence Delta Data Cursor P) (hlc : HLCImpl)
    (clockPersist : ClockPersist CP) (collection : string) (serverCursor : Cursor)
    (ds : list (NodeDelta Delta)) (w : W) (p' : P) (data : gmap string Data) :
  state w = createClient_state persistence →
  "__proto__" ∉ collections persistence →
  is_prototype_member collection = false →
  applyDeltas persistence collection (map (with_stamp crdt) ds) serverCursor
    (deltas_apply crdt) (store w) = (p', Ok data) →
  (∀ d, d ∈ ds → is_prototype_member (nd_node d) = false) →
  let r := handleMessage crdt persistence hlc (recvClock hlc clockPersist)
             (SSync collection serverCursor ds) w in
  if decide (collection ∈ collections persistence)
  then state r.1 = state w
       ∧ ∃ calls : list Ev,
           log r.1 = log w ++ calls
           ∧ List.filter is_listener_call calls = []
           ∧ List.filter is_item_listener_call calls = []
  else r.2 = Throw (TypeError "Cannot read properties of undefined (reading 'listeners')").
Proof.
  intros Hfresh _ _ Happly Hds. cbv zeta.
  pose proof (createClient_state_tracks persistence collection) as Htracks.
  rewrite <- Hfresh in Htracks.
  destruct (decide (collection ∈ collections persistence)) as [Hin|Hnin].
  - destruct (handleMessage_sync_client crdt persistence hlc clockPersist
                collection serverCursor ds newCollection w p' data Htracks Happly)
      as (_ & Hstate & Hlog).
    split.
    + rewrite Hstate. apply insert_id. rewrite Htracks. f_equal.
      unfold with_cache. simpl. rewrite cache_after_empty; [done|].
      intros id Hid. apply ran_ids_subset in Hid.
      by apply (changed_ids_ordinary ds Hds).
    + eexists. split; [exact Hlog|].
      pose proof (item_events_newCollection crdt data
                    (ran_ids (itemListeners (newCollection (Data:=Data)))
                       (object_keys (map nd_node ds))))
        as Hitems.
      split.
      * rewrite List.filter_app, filter_clock_part, app_nil_r by done.
        unfold sync_events. rewrite Hitems. simpl. by destruct (_ && _).
      * rewrite List.filter_app, filter_clock_part, app_nil_r by done.
        unfold sync_events. rewrite Hitems. simpl. by destruct (_ && _).
  - by rewrite (handleMessage_sync_untracked _ _ _ _ _ _ _ w p' data).
Qed.

(** ** The order of the changed ids *)

Lemma assign_keys_fresh (ks own : list string) :
  NoDup (own ++ ks) → "__proto__" ∉ ks → fold_left assign_key ks own = own ++ ks.
Proof.
  revert own. induction ks as [|k ks IH]; intros own Hnd Hp; simpl.
  - by rewrite app_nil_r.
  - unfold assign_key. rewrite decide_False by (intros ->; apply Hp; left).
    rewrite decide_False.
    + rewrite IH; rewrite <- ?app_assoc; [done|done|].
      intros Hin. apply Hp. by right.
    + apply NoDup_app in Hnd as (_ & Hdisj & _). intros Hk.
      apply (Hdisj k Hk). left.
Qed.

(** X15.  When the deltas of a message name pairwise distinct nodes, none
    of them by a canonical array index (a decimal number below 2^32 - 1)
    and none of them ["__proto__"], the changed ids handed to listeners and
    to the broadcast are the node ids in the order of the deltas. *)
Theorem object_keys_message_order (ks : list string) :
  NoDup ks → (∀ k, k ∈ ks → is_array_index k = false) → "__proto__" ∉ ks →
  object_keys ks = ks.
Proof.
  intros Hnd Hidx Hp. unfold object_keys, assigned_keys.
  rewrite (assign_keys_fresh ks []) by done. simpl.
  unfold ordinary_own_keys.
  assert (filter (λ k, is_array_index k = true) ks = []) as ->.
  { clear Hnd Hp. induction ks as [|k ks IH]; [done|].
    rewrite filter_cons_False.
    - apply IH. intros k' Hk'. apply Hidx. by right.
    - rewrite (Hidx k) by left. done. }
  assert (filter (λ k, is_array_index k = false) ks = ks) as ->.
  { clear Hnd Hp. induction ks as [|k ks IH]; [done|].
    rewrite filter_cons_True by (apply Hidx; left).
    f_equal. apply IH. intros k' Hk'. apply Hidx. by right. }
  reflexivity.
Qed.

(** ** Redelivery *)

Lemma cache_after_idempotent (data : gmap string Data) (ids : list string)
    (c : gmap string Data) :
  cache_after data ids (cache_after data ids c) = cache_after data ids c.
Proof.
  apply map_eq. intros N. rewrite (cache_after_lookup data ids (cache_after data ids c)).
  destruct (bool_decide (N ∈ ids ∧ N ≠ "__proto__")) eqn:E; [|done]. simpl.
  destruct (slot_truthy (obj_get (cache_after data ids c) N)) eqn:Htruthy; [|done].
  pose proof (cache_after_lookup data ids c N) as Hl. rewrite E in Hl. simpl in Hl.
  destruct (slot_truthy (obj_get c N)) eqn:Hc.
  - by rewrite Hl.
  - rewrite (obj_get_same c _ N Hl) in Htruthy. congruence.
Qed.

(** X16.  Redelivery leaves the caches alone.  When a sync message is
    processed a second time and the persistence returns the same merged data
    as the first time (as an idempotent merge does), the [state] object after
    the second pass is the one after the first. *)
Theorem sync_redelivery_keeps_state (crdt : CRDTImpl Delta Data Value)
    (persistence : DeltaPersistence Delta Data Cursor P) (hlc : HLCImpl)
    (clockPersist : ClockPersist CP) (collection : string) (serverCursor : Cursor)
    (ds : list (NodeDelta Delta)) (col : CollectionState Data) (w : W)
    (p1 p2 : P) (data : gmap string Data) :
  state w !! collection = Some col →
  applyDeltas persistence collection (map (with_stamp crdt) ds) serverCursor
    (deltas_apply crdt) (store w) = (p1, Ok data) →
  applyDeltas persistence collection (map (with_stamp crdt) ds) serverCursor
    (deltas_apply crdt) p1 = (p2, Ok data) →
  let w1 := (handleMessage crdt persistence hlc (recvClock hlc clockPersist)
               (SSync collection serverCursor ds) w).1 in
  state (handleMessage crdt persistence hlc (recvClock hlc clockPersist)
           (SSync collection serverCursor ds) w1).1
  = state w1.
Proof.
  intros Hcol Happly1 Happly2. cbv zeta.
  destruct (handleMessage_sync_client crdt persistence hlc clockPersist
              collection serverCursor ds col w p1 data Hcol Happly1)
    as (Hstore1 & Hstate1 & _).
  set (w1 := (handleMessage crdt persistence hlc (recvClock hlc clockPersist)
                (SSync collection serverCursor ds) w).1) in *.
  set (col1 := with_cache
                 (cache_after data
                    (ran_ids (itemListeners col) (object_keys (map nd_node ds)))
                    (cache col)) col) in *.
  assert (state w1 !! collection = Some col1) as Hcol1.
  { rewrite Hstate1. apply lookup_insert_eq. }
  rewrite <- Hstore1 in Happly2.
  destruct (handleMessage_sync_client crdt persistence hlc clockPersist
              collection serverCursor ds col1 w1 p2 data Hcol1 Happly2)
    as (_ & Hstate2 & _).
  rewrite Hstate2. apply insert_id. rewrite Hcol1. f_equal.
  unfold col1, with_cache. simpl. by rewrite cache_after_idempotent.
Qed.

End MoreProperties.

(** * Examples for the further properties *)

Lemma getMessages_in_collection_order_witness :
  sublist (map cm_collection [todos_message]) ["todos"; "notes"].
Proof.
  apply (getMessages_in_collection_order (mem_persistence ["todos"; "notes"]) false
           mem_pending_t1).
  vm_compute. reflexivity.
Defined.

Lemma getMessages_reconnect_adds_witness :
  ∃ all, getMessages (mem_persistence ["todos"; "notes"]) true mem_pending_t1 = Ok all
         ∧ map cm_collection all = ["todos"; "notes"]
         ∧ sublist [todos_message] all.
Proof.
  apply (getMessages_reconnect_adds (mem_persistence ["todos"; "notes"]) mem_pending_t1).
  vm_compute. reflexivity.
Defined.

Lemma sync_merge_failure_witness :
  handleMessage lww failing_persistence test_hlc (recvClock test_hlc mem_clock)
    (SSync "todos" (Some 5%nat) [delta_t1]) (world col_listening empty_mem)
  = (set_log (log (world col_listening empty_mem)
              ++ [EvApplyDeltas "todos" (map (with_stamp lww) [delta_t1]) (Some 5%nat)])
       (set_store empty_mem (world col_listening empty_mem)),
     Throw (Rejected "TransactionInactiveError")).
Proof.
  apply (sync_merge_failure lww failing_persistence test_hlc
           (recvClock test_hlc mem_clock) "todos" (Some 5%nat) [delta_t1]
           (world col_listening empty_mem) empty_mem
           (Rejected "TransactionInactiveError")).
  reflexivity.
Defined.

(** Two deltas on the same node: one broadcast, naming the node once. *)
Lemma sync_broadcast_once_witness :
  ∃ (calls : list (Event Write (option nat) (option nat))) (nodes : list string),
    log (handle (SSync "todos" (Some 5%nat) [delta_t1; delta_t1]) col_listening).1
    = log (world col_listening empty_mem) ++ calls
    ∧ List.filter is_broadcast_call calls
      = [EvSendCrossTabChanges {| pc_col := "todos"; pc_nodes := nodes |}]
    ∧ NoDup nodes
    ∧ (∀ id, id ∈ nodes ↔ id ∈ map nd_node [delta_t1; delta_t1]).
Proof.
  apply (sync_broadcast_once lww todos_persistence test_hlc mem_clock "todos"
           (Some 5%nat) [delta_t1; delta_t1] col_listening
           (world col_listening empty_mem)
           (mem_after "todos" (Some 5%nat) {[ "t1" := NReg "1000:0:srv" 4 ]})
           {[ "t1" := NReg "1000:0:srv" 4 ]}).
  - reflexivity.
  - vm_compute. reflexivity.
  - intros d Hd.
    repeat (apply elem_of_cons in Hd as [->|Hd]; [reflexivity|]).
    by apply elem_of_nil in Hd.
Defined.

Example broadcast_ex :
  List.filter is_broadcast_call
    (log (handle (SSync "todos" (Some 5%nat) [delta_t1; delta_t2; delta_t1]) col_listening).1)
  = [EvSendCrossTabChanges {| pc_col := "todos"; pc_nodes := ["t1"; "t2"] |}].
Proof. vm_compute. reflexivity. Qed.

Lemma sync_frame_witness :
  (∀ other, other ≠ "todos" →
     state (handle (SSync "todos" (Some 5%nat) [delta_t2]) col_cached).1 !! other
     = state (world col_cached empty_mem) !! other)
  ∧ ∃ col',
      state (handle (SSync "todos" (Some 5%nat) [delta_t2]) col_cached).1 !! "todos"
      = Some col'
      ∧ listeners col' = listeners col_cached
      ∧ itemListeners col' = itemListeners col_cached
      ∧ (∀ N, N ∉ map nd_node [delta_t2] → cache col' !! N = cache col_cached !! N)
      ∧ (∀ N, is_prototype_member N = false →
              (is_Some (cache col' !! N) ↔ is_Some (cache col_cached !! N))).
Proof.
  apply (sync_frame lww todos_persistence test_hlc mem_clock "todos" (Some 5%nat)
           [delta_t2] col_cached (world col_cached empty_mem)
           (mem_after "todos" (Some 5%nat) {[ "t2" := NReg "2000:5:srv" 8 ]})
           {[ "t2" := NReg "2000:5:srv" 8 ]}).
  - reflexivity.
  - vm_compute. reflexivity.
Defined.

Lemma sync_call_order_witness :
  ∃ ls ils bs cs : list (Event Write (option nat) (option nat)),
    log (handle (SSync "todos" (Some 5%nat) [delta_t1; delta_t2]) col_listening).1
    = log (world col_listening empty_mem)
      ++ EvApplyDeltas "todos"
           (map (λ d, {| pd_node := nd_node d; pd_delta := nd_delta d;
                         pd_stamp := deltas_stamp lww (nd_delta d) |})
                [delta_t1; delta_t2])
           (Some 5%nat)
         :: ls ++ ils ++ bs ++ cs
    ∧ Forall (λ e, is_listener_call e = true) ls
    ∧ Forall (λ e, is_item_listener_call e = true) ils
    ∧ Forall (λ e, is_broadcast_call e = true) bs
    ∧ Forall (λ e, is_clock_call e = true) cs.
Proof.
  apply (sync_call_order lww todos_persistence test_hlc mem_clock "todos" (Some 5%nat)
           [delta_t1; delta_t2] col_listening (world col_listening empty_mem)
           (mem_after "todos" (Some 5%nat) merged_t1_t2) merged_t1_t2).
  - reflexivity.
  - vm_compute. reflexivity.
Defined.

Example call_order_ex :
  log (handle (SSync "todos" (Some 5%nat) [delta_t1; delta_t2]) col_listening).1
  = [EvApplyDeltas "todos"
       [{| pd_node := "t1"; pd_delta := nd_delta delta_t1; pd_stamp := "1000:0:srv" |};
        {| pd_node := "t2"; pd_delta := nd_delta delta_t2; pd_stamp := "2000:5:srv" |}]
       (Some 5%nat);
     EvListener 3%nat [("t1", Some 4%nat); ("t2", Some 8%nat)];
     EvItemListener "t1" 7%nat (Some 4%nat);
     EvSendCrossTabChanges {| pc_col := "todos"; pc_nodes := ["t1"; "t2"] |};
     EvRecvClock remote_clock;
     EvClockPersistSet {| node := "n0"; timestamp := 2000; counter := 6 |}].
Proof. vm_compute. reflexivity. Qed.

Lemma max_stamp_order_independent_witness :
  max_stamp lww [delta_t1; delta_t2] = max_stamp lww [delta_t2; delta_t1].
Proof.
  apply (max_stamp_order_independent lww [delta_t1; delta_t2] [delta_t2; delta_t1]).
  apply perm_swap.
Defined.

Lemma sync_without_stamp_keeps_clock_witness :
  (∃ calls : list (Event Write (option nat) (option nat)),
     log (handle (SSync "todos" (Some 5%nat) [delta_unstamped]) col_cached).1
     = log (world col_cached empty_mem) ++ calls
     ∧ List.filter is_clock_call calls = [])
  ∧ clock (handle (SSync "todos" (Some 5%nat) [delta_unstamped]) col_cached).1
    = clock (world col_cached empty_mem)
  ∧ clockStore (handle (SSync "todos" (Some 5%nat) [delta_unstamped]) col_cached).1
    = clockStore (world col_cached empty_mem)
  ∧ tick (handle (SSync "todos" (Some 5%nat) [delta_unstamped]) col_cached).1
    = tick (world col_cached empty_mem).
Proof.
  apply (sync_without_stamp_keeps_clock lww todos_persistence test_hlc mem_clock
           "todos" (Some 5%nat) [delta_unstamped] col_cached
           (world col_cached empty_mem)
           (mem_after "todos" (Some 5%nat) merged_unstamped) merged_unstamped).
  - reflexivity.
  - vm_compute. reflexivity.
  - intros d Hd. apply elem_of_cons in Hd as [->|Hd]; [reflexivity|].
    by apply elem_of_nil in Hd.
Defined.

(** A stamp, the clock set back, a stamp: with a wall clock that stands
    still both stamps are ["1000:0:n0"]. *)
Lemma setClock_back_repeats_stamp_witness :
  ∃ s1 s2,
    (getStamp test_hlc mem_clock (frozen_world newCollection empty_mem)).2 = Ok s1
    ∧ (getStamp test_hlc mem_clock
         (setClock mem_clock (clock (frozen_world newCollection empty_mem))
            (getStamp test_hlc mem_clock (frozen_world newCollection empty_mem)).1).1).2
      = Ok s2
    ∧ s1 = s2.
Proof.
  exists "1000:0:n0", "1000:0:n0".
  split; [vm_compute; reflexivity|]. split; [vm_compute; reflexivity|].
  apply (setClock_back_repeats_stamp test_hlc mem_clock
           (frozen_world newCollection empty_mem) "1000:0:n0" "1000:0:n0").
  - reflexivity.
  - vm_compute. reflexivity.
  - vm_compute. reflexivity.
Defined.

Example setClock_back_ex :
  (getStamp test_hlc mem_clock (frozen_world newCollection empty_mem)).2
  = Ok "1000:0:n0"
  ∧ (getStamp test_hlc mem_clock
       (setClock mem_clock (clock (frozen_world newCollection empty_mem))
          (getStamp test_hlc mem_clock (frozen_world newCollection empty_mem)).1).1).2
    = Ok "1000:0:n0"
  ∧ (getStamp test_hlc mem_clock
       (getStamp test_hlc mem_clock (frozen_world newCollection empty_mem)).1).2
    = Ok "1000:1:n0".
Proof. repeat split; vm_compute; reflexivity. Qed.

(** A fresh client over [todos_persistence]: a sync for ["todos"], and
    one for ["notes"]. *)
Lemma fresh_client_sync_witness :
  (state (handle (SSync "todos" (Some 5%nat) [delta_t1; delta_t2]) newCollection).1
   = state (world newCollection empty_mem)
   ∧ ∃ calls : list (Event Write (option nat) (option nat)),
       log (handle (SSync "todos" (Some 5%nat) [delta_t1; delta_t2]) newCollection).1
       = log (world newCollection empty_mem) ++ calls
       ∧ List.filter is_listener_call calls = []
       ∧ List.filter is_item_listener_call calls = [])
  ∧ (handle (SSync "notes" (Some 5%nat) [delta_t1; delta_t2]) newCollection).2
    = Throw (TypeError "Cannot read properties of undefined (reading 'listeners')").
Proof.
  split.
  - apply (fresh_client_sync lww todos_persistence test_hlc mem_clock "todos"
             (Some 5%nat) [delta_t1; delta_t2] (world newCollection empty_mem)
             (mem_after "todos" (Some 5%nat) merged_t1_t2) merged_t1_t2).
    + vm_compute. reflexivity.
    + apply (bool_decide_unpack _). vm_compute. exact I.
    + reflexivity.
    + vm_compute. reflexivity.
    + intros d Hd.
      repeat (apply elem_of_cons in Hd as [->|Hd]; [reflexivity|]).
      by apply elem_of_nil in Hd.
  - apply (fresh_client_sync lww todos_persistence test_hlc mem_clock "notes"
             (Some 5%nat) [delta_t1; delta_t2] (world newCollection empty_mem)
             (mem_after "notes" (Some 5%nat) merged_t1_t2) merged_t1_t2).
    + vm_compute. reflexivity.
    + apply (bool_decide_unpack _). vm_compute. exact I.
    + reflexivity.
    + vm_compute. reflexivity.
    + intros d Hd.
      repeat (apply elem_of_cons in Hd as [->|Hd]; [reflexivity|]).
      by apply elem_of_nil in Hd.
Defined.

Lemma object_keys_message_order_witness :
  object_keys ["t2"; "t1"; "1e3"; "007"] = ["t2"; "t1"; "1e3"; "007"].
Proof.
  apply (object_keys_message_order ["t2"; "t1"; "1e3"; "007"]).
  - apply (bool_decide_unpack _). vm_compute. exact I.
  - intros k Hk.
    repeat (apply elem_of_cons in Hk as [->|Hk]; [reflexivity|]).
    by apply elem_of_nil in Hk.
  - apply (bool_decide_unpack _). vm_compute. exact I.
Defined.

(** The same message twice over the in-memory persistence, whose merge is
    idempotent. *)
Lemma sync_redelivery_keeps_state_witness :
  state (handleMessage lww todos_persistence test_hlc (recvClock test_hlc mem_clock)
           (SSync "todos" (Some 5%nat) [delta_t1; delta_t2])
           (handle (SSync "todos" (Some 5%nat) [delta_t1; delta_t2]) col_cached).1).1
  = state (handle (SSync "todos" (Some 5%nat) [delta_t1; delta_t2]) col_cached).1.
Proof.
  apply (sync_redelivery_keeps_state lww todos_persistence test_hlc mem_clock "todos"
           (Some 5%nat) [delta_t1; delta_t2] col_cached (world col_cached empty_mem)
           (mem_after "todos" (Some 5%nat) merged_t1_t2)
           (mem_after "todos" (Some 5%nat) merged_t1_t2) merged_t1_t2).
  - reflexivity.
  - vm_compute. reflexivity.
  - vm_compute. reflexivity.
Defined.

(** A sync message over a clock store that is full: the cache is updated
    and the error of the write comes out. *)
Example clock_store_failure_ex :
  (handleMessage lww todos_persistence test_hlc (recvClock test_hlc full_clock)
     (SSync "todos" (Some 5%nat) [delta_t1]) (world col_cached empty_mem)).2
  = Throw (Rejected "QuotaExceededError")
  ∧ cache <$> state (handleMessage lww todos_persistence test_hlc
                       (recvClock test_hlc full_clock)
                       (SSync "todos" (Some 5%nat) [delta_t1])
                       (world col_cached empty_mem)).1 !! "todos"
    = Some {[ "t1" := NReg "1000:0:srv" 4 ]}.
Proof. split; vm_compute; reflexivity. Qed.
